(** * image-text-composer: the canvas editor's history log and the wallet panel

    A shallow embedding of [src/app/page.tsx] (component [CanvasEditor]) and of
    [src/components/wallet/index.js] (component [WalletInterface]).

    React refs ([useRef]) and state variables ([useState]) become the fields of
    one record per component; every handler is a function on that record.  The
    graphics library (fabric) and the injected wallet provider are outside the
    repository: the few operations the handlers call are modelled next to the
    handler that uses them and are marked as library models.

    A handler is taken to run to completion: what other handlers could do
    while it waits at an [await] is not modelled, and a timer a handler sets
    is a separate operation.  Of the editor, the mount effect with its
    restore of a stored design, the history handlers, [reset], [handleUpload],
    [handleExport], [addText] and the arrow-key handler are embedded; the
    controls of the text panel are not. *)

From stdpp Require Import gmap strings list.
From Stdlib Require Import QArith Qminmax.

Set Default Proof Using "Type".
Open Scope string_scope.
Open Scope list_scope.
Open Scope nat_scope.

(** ** JavaScript numbers

    Canvas coordinates and scale factors are JavaScript numbers.  The handlers
    only multiply, divide and compare them, so the editor is stated over any
    type carrying these operations; nothing below depends on rounding. *)

Class Number (num : Type) := {
  lit : nat → num;                (* a numeric literal of the source *)
  mul : num → num → num;          (* a * b *)
  div : num → num → num;          (* a / b *)
  gtb : num → num → bool          (* a > b *)
}.

(** Exact rationals are one instance. *)
#[export] Instance Q_Number : Number Q := {
  lit n := inject_Z (Z.of_nat n);
  mul := Qmult;
  div := Qdiv;
  gtb a b := match Qcompare a b with Gt => true | _ => false end
}.

(** ** JavaScript truthiness of strings

    [""] is falsy, and so is [null]. *)

Definition falsy (x : string) : bool := if x is "" then true else false.

Definition truthy (x : option string) : option string :=
  match x with
  | Some "" => None
  | _ => x
  end.

(** [a > b] on array lengths. *)
Notation "a >? b" := (Nat.ltb b a) (at level 70, no associativity) : nat_scope.

(** ** JavaScript arrays used as stacks *)

Module JsArray.
Section Ops.
Context {A : Type}.

(** [a.push(x)] *)
Definition push (a : list A) (x : A) : list A := a ++ [x].

(** [a.shift()]: drops the first element (nothing to drop on []). *)
Definition shift (a : list A) : list A := tail a.

(** [a.pop()]: the removed last element, if any, and what is left. *)
Definition pop (a : list A) : option A * list A := (last a, removelast a).

(** [a[a.length - 1]] *)
Definition at_last (a : list A) : option A := last a.
End Ops.
End JsArray.

Module Editor.
Import JsArray.

Section CanvasEditor.
Context {num : Type} `{Number num}.

(** *** Library model: fabric objects and canvases *)

(** An overlay object (a [fabric.Textbox]).  The four geometry properties
    are read with [??] by [handleExport], so they may be missing. *)
Record FabricObject := {
  text : string;
  scaleX : option num;
  scaleY : option num;
  left : option num;
  top : option num
}.

(** [fabric.FabricImage]. *)
Record FabricImage := {
  getSrc : string;
  img_width : num;
  img_height : num;
  img_originX : string;
  img_originY : string;
  img_left : num;
  img_top : num;
  img_scaleX : num;
  img_scaleY : num
}.

(** [fabric.Canvas]: the objects in stacking order, the background image and
    the dimensions. *)
Record Canvas := {
  getObjects : list FabricObject;
  backgroundImage : option FabricImage;
  getWidth : num;
  getHeight : num
}.

(** Library model: [fabric.FabricImage.fromURL(src)], the decoded image.  The
    sources handed to it are the data URLs produced by the file reader. *)
Variable fromURL : string → FabricImage.

(** Library model: [canvas.toJSON()] serialises the canvas contents; the model
    keeps the object list. *)
Definition CanvasJSON : Type := list FabricObject.
Definition toJSON (canvas : Canvas) : CanvasJSON := getObjects canvas.

(** *** Snapshots *)

(** [interface ImageCanvas]: what a snapshot records. *)
Record ImageCanvas := {
  objects : CanvasJSON;
  background : option string       (* string | null *)
}.

(** The texts the component writes.  A text is represented by the value it
    denotes, as [JSON.parse(JSON.stringify(v))] gives [v] back.  There are
    two shapes: [JSON.stringify({ objects: canvas.toJSON(), background })],
    written by [saveHistory] and [handleUpload], and
    [JSON.stringify(canvas.toJSON())], which the mount effect pushes on the
    undo stack. *)
Inductive JsonText :=
| JSON_stringify (v : ImageCanvas)
| JSON_stringify_canvas (json : CanvasJSON).

(** Library model: the [objects] property of a parsed canvas JSON is the
    array of its objects.  [canvas.loadFromJSON] handed this array finds no
    [objects] property in it and loads nothing: the array reads as the JSON
    of a canvas without objects. *)
Definition array_as_json (objs : list FabricObject) : CanvasJSON := [].

(** An element read from a [string[]]: [None] is [undefined], which is what
    [pop()] and an out-of-range index give. *)
Definition slot : Type := option JsonText.

(** [JSON.parse(x)] read as an [ImageCanvas], which is how [undo], [redo] and
    the mount effect use it: [None] stands for the [SyntaxError] thrown on
    [undefined].  A canvas JSON has an [objects] array and no [background]
    property (the component never sets a background colour). *)
Definition JSON_parse (x : slot) : option ImageCanvas :=
  match x with
  | Some (JSON_stringify v) => Some v
  | Some (JSON_stringify_canvas json) =>
    Some {| objects := array_as_json json; background := None |}
  | None => None
  end.

(** The value a text denotes when read as an [ImageCanvas]. *)
Definition parse (t : JsonText) : ImageCanvas :=
  match t with
  | JSON_stringify v => v
  | JSON_stringify_canvas json =>
    {| objects := array_as_json json; background := None |}
  end.

(** [pop() as string] and [a[i]]: a missing element is [undefined]. *)
Definition or_undefined (x : option slot) : slot := default None x.

(** *** Component state *)

Record Size := { width : num; height : num }.

Record State := {
  canvasRef : option Canvas;
  imgOriginal : option Size;
  backgroundRef : option string;
  undoStack : list slot;
  redoStack : list slot;
  isRestoring : bool;
  hasBackground : bool;
  canUndo : bool;
  canRedo : bool;
  localStorage : gmap string JsonText
}.

Definition MAX_HISTORY : nat := 20.

Definition set_canvasRef (v : option Canvas) (s : State) : State :=
  {| canvasRef := v; imgOriginal := imgOriginal s;
     backgroundRef := backgroundRef s; undoStack := undoStack s;
     redoStack := redoStack s; isRestoring := isRestoring s;
     hasBackground := hasBackground s; canUndo := canUndo s;
     canRedo := canRedo s; localStorage := localStorage s |}.

Definition set_imgOriginal (v : option Size) (s : State) : State :=
  {| canvasRef := canvasRef s; imgOriginal := v;
     backgroundRef := backgroundRef s; undoStack := undoStack s;
     redoStack := redoStack s; isRestoring := isRestoring s;
     hasBackground := hasBackground s; canUndo := canUndo s;
     canRedo := canRedo s; localStorage := localStorage s |}.

Definition set_backgroundRef (v : option string) (s : State) : State :=
  {| canvasRef := canvasRef s; imgOriginal := imgOriginal s;
     backgroundRef := v; undoStack := undoStack s;
     redoStack := redoStack s; isRestoring := isRestoring s;
     hasBackground := hasBackground s; canUndo := canUndo s;
     canRedo := canRedo s; localStorage := localStorage s |}.

Definition set_undoStack (v : list slot) (s : State) : State :=
  {| canvasRef := canvasRef s; imgOriginal := imgOriginal s;
     backgroundRef := backgroundRef s; undoStack := v;
     redoStack := redoStack s; isRestoring := isRestoring s;
     hasBackground := hasBackground s; canUndo := canUndo s;
     canRedo := canRedo s; localStorage := localStorage s |}.

Definition set_redoStack (v : list slot) (s : State) : State :=
  {| canvasRef := canvasRef s; imgOriginal := imgOriginal s;
     backgroundRef := backgroundRef s; undoStack := undoStack s;
     redoStack := v; isRestoring := isRestoring s;
     hasBackground := hasBackground s; canUndo := canUndo s;
     canRedo := canRedo s; localStorage := localStorage s |}.

Definition set_isRestoring (v : bool) (s : State) : State :=
  {| canvasRef := canvasRef s; imgOriginal := imgOriginal s;
     backgroundRef := backgroundRef s; undoStack := undoStack s;
     redoStack := redoStack s; isRestoring := v;
     hasBackground := hasBackground s; canUndo := canUndo s;
     canRedo := canRedo s; localStorage := localStorage s |}.

Definition setHasBackground (v : bool) (s : State) : State :=
  {| canvasRef := canvasRef s; imgOriginal := imgOriginal s;
     backgroundRef := backgroundRef s; undoStack := undoStack s;
     redoStack := redoStack s; isRestoring := isRestoring s;
     hasBackground := v; canUndo := canUndo s;
     canRedo := canRedo s; localStorage := localStorage s |}.

Definition setCanUndo (v : bool) (s : State) : State :=
  {| canvasRef := canvasRef s; imgOriginal := imgOriginal s;
     backgroundRef := backgroundRef s; undoStack := undoStack s;
     redoStack := redoStack s; isRestoring := isRestoring s;
     hasBackground := hasBackground s; canUndo := v;
     canRedo := canRedo s; localStorage := localStorage s |}.

Definition setCanRedo (v : bool) (s : State) : State :=
  {| canvasRef := canvasRef s; imgOriginal := imgOriginal s;
     backgroundRef := backgroundRef s; undoStack := undoStack s;
     redoStack := redoStack s; isRestoring := isRestoring s;
     hasBackground := hasBackground s; canUndo := canUndo s;
     canRedo := v; localStorage := localStorage s |}.

Definition set_localStorage (v : gmap string JsonText) (s : State) : State :=
  {| canvasRef := canvasRef s; imgOriginal := imgOriginal s;
     backgroundRef := backgroundRef s; undoStack := undoStack s;
     redoStack := redoStack s; isRestoring := isRestoring s;
     hasBackground := hasBackground s; canUndo := canUndo s;
     canRedo := canRedo s; localStorage := v |}.

(** [localStorage.setItem(k, v)] and [localStorage.removeItem(k)]. *)
Definition setItem (k : string) (v : JsonText) (s : State) : State :=
  set_localStorage (<[k := v]> (localStorage s)) s.
Definition removeItem (k : string) (s : State) : State :=
  set_localStorage (delete k (localStorage s)) s.

(** The canvas object is shared through [canvasRef]; a mutation of it is an
    update of the referenced value. *)
Definition with_canvas (f : Canvas → Canvas) (s : State) : State :=
  set_canvasRef (f <$> canvasRef s) s.

Definition set_objects (objs : list FabricObject) (c : Canvas) : Canvas :=
  {| getObjects := objs; backgroundImage := backgroundImage c;
     getWidth := getWidth c; getHeight := getHeight c |}.

Definition set_backgroundImage (img : option FabricImage) (c : Canvas) : Canvas :=
  {| getObjects := getObjects c; backgroundImage := img;
     getWidth := getWidth c; getHeight := getHeight c |}.

(** [canvas.setDimensions({ width, height })] *)
Definition setDimensions (w h : num) (c : Canvas) : Canvas :=
  {| getObjects := getObjects c; backgroundImage := backgroundImage c;
     getWidth := w; getHeight := h |}.

(** *** History handlers *)

(** [updateStackStates] *)
Definition updateStackStates (s : State) : State :=
  let s := setCanUndo (length (undoStack s) >? 1) s in
  setCanRedo (length (redoStack s) >? 0) s.

(** The snapshot [saveHistory] takes of a canvas. *)
Definition snapshot_of (canvas : Canvas) (s : State) : JsonText :=
  JSON_stringify {| objects := toJSON canvas; background := backgroundRef s |}.

(** [saveHistory] *)
Definition saveHistory (s : State) : State :=
  if isRestoring s then s else
  match canvasRef s with
  | None => s
  | Some canvas =>
    let snapshot := snapshot_of canvas s in
    let s := set_undoStack (push (undoStack s) (Some snapshot)) s in
    let s := if length (undoStack s) >? MAX_HISTORY
             then set_undoStack (shift (undoStack s)) s else s in
    let s := setItem "canvasDesign" snapshot s in
    updateStackStates s
  end.

(** Library model: the canvas fires [object:removed] after each removal and
    [object:added] after each addition; the mount effect registers
    [saveHistory] on both (and on [object:modified]). *)
Fixpoint canvas_remove (objs : list FabricObject) (s : State) : State :=
  match objs with
  | [] => s
  | _ :: rest => canvas_remove rest (saveHistory (with_canvas (set_objects rest) s))
  end.

Fixpoint canvas_add (objs : list FabricObject) (s : State) : State :=
  match objs with
  | [] => s
  | o :: rest =>
    canvas_add rest
      (saveHistory (with_canvas (λ c, set_objects (push (getObjects c) o) c) s))
  end.

(** Library model: [canvas.clear()] removes every object and the background
    image. *)
Definition canvas_clear (s : State) : State :=
  match canvasRef s with
  | None => s
  | Some canvas =>
    with_canvas (set_backgroundImage None) (canvas_remove (getObjects canvas) s)
  end.

(** Library model: one call [canvas.add(...objs)] puts all the objects on the
    canvas and then fires [object:added] once for each of them. *)
Definition canvas_add_all (objs : list FabricObject) (s : State) : State :=
  Nat.iter (length objs) saveHistory
    (with_canvas (λ c, set_objects (getObjects c ++ objs) c) s).

(** Library model: [canvas.loadFromJSON(json)] clears the canvas and adds the
    serialised objects, in one call of [add]. *)
Definition loadFromJSON (json : CanvasJSON) (s : State) : State :=
  canvas_add_all json (canvas_clear s).

Definition maxWidth : num := lit 600.

(** The scale at which an image of width [w] is displayed:
    [img.width > maxWidth ? maxWidth / img.width : 1]. *)
Definition fit_scale (w : num) : num :=
  if gtb w maxWidth then div maxWidth w else lit 1.

(** [img.set({ originX: "left", originY: "top", left: 0, top: 0, scaleX,
    scaleY })] *)
Definition place_background (scale : num) (img : FabricImage) : FabricImage :=
  {| getSrc := getSrc img; img_width := img_width img;
     img_height := img_height img;
     img_originX := "left"; img_originY := "top";
     img_left := lit 0; img_top := lit 0;
     img_scaleX := scale; img_scaleY := scale |}.

(** JavaScript truthiness of the canvas JSON: it is an object. *)
Definition truthy_json (json : CanvasJSON) : bool := true.

(** [loadSnapshot(canvas, snapshot)].  The [canvas] argument is always
    [canvasRef.current], which the model updates in the state.  The timer set
    in the last statement is [restoreTimeout] below. *)
Definition loadSnapshot (snapshot : ImageCanvas) (s : State) : State :=
  let s := set_isRestoring true s in
  let s := if truthy_json (objects snapshot)
           then loadFromJSON (objects snapshot) s else s in
  match truthy (background snapshot) with
  | Some background =>
    let img := fromURL background in
    let scale := fit_scale (img_width img) in
    let s := with_canvas
               (setDimensions (mul (img_width img) scale) (mul (img_height img) scale)) s in
    let img := place_background scale img in
    let s := with_canvas (set_backgroundImage (Some img)) s in
    let s := set_backgroundRef (Some background) s in
    setHasBackground true s
  | None =>
    let s := set_backgroundRef None s in
    let s := setHasBackground false s in
    with_canvas (set_backgroundImage None) s
  end.

(** The callback of [setTimeout(() => { isRestoring.current = false }, 0)]. *)
Definition restoreTimeout (s : State) : State := set_isRestoring false s.

(** How an [async] handler ends: it returns, or an exception rejects its
    promise.  The state carries every mutation made up to that point. *)
Inductive completion :=
| Return (s : State)
| Throw (s : State).

Definition state_of (c : completion) : State :=
  match c with Return s | Throw s => s end.

Definition returns (c : completion) : bool :=
  match c with Return _ => true | Throw _ => false end.

(** [undo] *)
Definition undo (s : State) : completion :=
  match canvasRef s with
  | None => Return s
  | Some _ =>
    let '(current, rest) := pop (undoStack s) in
    let s := set_undoStack rest s in
    let s := set_redoStack (push (redoStack s) (or_undefined current)) s in
    let s := if length (redoStack s) >? MAX_HISTORY
             then set_redoStack (shift (redoStack s)) s else s in
    match JSON_parse (or_undefined (at_last (undoStack s))) with
    | None => Throw s
    | Some prev => Return (updateStackStates (loadSnapshot prev s))
    end
  end.

(** [redo] *)
Definition redo (s : State) : completion :=
  match canvasRef s with
  | None => Return s
  | Some _ =>
    if length (redoStack s) =? 0 then Return s else
    let '(snapshot, rest) := pop (redoStack s) in
    let s := set_redoStack rest s in
    let s := set_undoStack (push (undoStack s) (or_undefined snapshot)) s in
    let s := if length (undoStack s) >? MAX_HISTORY
             then set_undoStack (shift (undoStack s)) s else s in
    match JSON_parse (or_undefined snapshot) with
    | None => Throw s
    | Some next => Return (updateStackStates (loadSnapshot next s))
    end
  end.

(** [reset] *)
Definition reset (s : State) : State :=
  match canvasRef s with
  | None => s
  | Some _ =>
    let s := canvas_clear s in
    let s := set_backgroundRef None s in
    let s := setHasBackground false s in
    let s := set_undoStack [] s in
    let s := set_redoStack [] s in
    let s := removeItem "canvasDesign" s in
    updateStackStates s
  end.

(** *** Upload and export *)

(** The [reader.onload] callback of [handleUpload]; [src] is
    [f.target?.result], the data URL read from the file. *)
Definition onload (src : option string) (s : State) : State :=
  match truthy src with
  | None => s
  | Some src =>
    let img := fromURL src in
    match canvasRef s with
    | None => s
    | Some _ =>
      let s := set_imgOriginal
                 (Some {| width := img_width img; height := img_height img |}) s in
      let s := set_backgroundRef (Some src) s in
      let s := setHasBackground true s in
      let s := canvas_clear s in
      let scale := fit_scale (img_width img) in
      let s := with_canvas
                 (setDimensions (mul (img_width img) scale)
                                (mul (img_height img) scale)) s in
      let img := place_background scale img in
      let s := with_canvas (set_backgroundImage (Some img)) s in
      match canvasRef s with
      | None => s
      | Some canvas => setItem "canvasDesign" (snapshot_of canvas s) s
      end
    end
  end.

(** [handleUpload]: [files] is [e.target.files], each file given by the data
    URL the reader produces for it. *)
Definition handleUpload (files : list (option string)) (s : State) : State :=
  match head files with
  | None => s
  | Some src => onload src s
  end.

(** Library model: [new fabric.Canvas(document.createElement("canvas"))], an
    empty canvas of the default element size. *)
Definition new_Canvas : Canvas :=
  {| getObjects := []; backgroundImage := None;
     getWidth := lit 300; getHeight := lit 150 |}.

(** The body of the [for] loop of [handleExport] on one clone, for the
    factors [kx] and [ky] (the source's local [scaleX] and [scaleY]). *)
Definition export_object (kx ky : num) (cloned : FabricObject) : FabricObject :=
  {| text := text cloned;
     scaleX := Some (mul (default (lit 1) (scaleX cloned)) kx);
     scaleY := Some (mul (default (lit 1) (scaleY cloned)) ky);
     left := Some (mul (default (lit 0) (left cloned)) kx);
     top := Some (mul (default (lit 0) (top cloned)) ky) |}.

(** [handleExport]: the canvas handed to [toDataURL] and downloaded as
    [export.png]; [None] when the handler returns at its guard. *)
Definition handleExport (s : State) : option Canvas :=
  match canvasRef s, imgOriginal s with
  | Some canvas, Some original =>
    let exportFabric := new_Canvas in
    let kx := div (width original) (getWidth canvas) in
    let ky := div (height original) (getHeight canvas) in
    let exportFabric :=
      fold_left
        (λ ex obj, set_objects (push (getObjects ex) (export_object kx ky obj)) ex)
        (getObjects canvas) exportFabric in
    let exportFabric :=
      setDimensions (width original) (height original) exportFabric in
    let exportFabric :=
      match backgroundImage canvas with
      | Some bg => set_backgroundImage (Some (fromURL (getSrc bg))) exportFabric
      | None => exportFabric
      end in
    Some exportFabric
  | _, _ => None
  end.

(** *** The mount effect *)

(** The refs and state variables of the first render; [store] is the
    browser's localStorage. *)
Definition unmounted (store : gmap string JsonText) : State :=
  {| canvasRef := None; imgOriginal := None; backgroundRef := None;
     undoStack := []; redoStack := []; isRestoring := false;
     hasBackground := false; canUndo := false; canRedo := false;
     localStorage := store |}.

(** The mount effect, with the canvas element rendered; it returns at once
    when the canvas exists already.  It creates the canvas, registers
    [saveHistory] on the object events, and restores a design stored under
    [canvasDesign], if there is one.  [load()] runs up to its first [await],
    then [updateStackStates()] runs, then [load] goes on: the objects are
    loaded while [isRestoring] is false, so every object added records a
    snapshot; the background is put back as [loadSnapshot] does, but
    [imgOriginal] is not assigned; and the text of [canvas.toJSON()] is
    pushed on the undo stack, without a capacity check and without
    [updateStackStates]. *)
Definition mount (s : State) : State :=
  match canvasRef s with
  | Some _ => s
  | None =>
    let s := set_canvasRef (Some new_Canvas) s in
    match localStorage s !! "canvasDesign" with
    | None => s
    | Some saved =>
      let saved := parse saved in
      let s := updateStackStates s in
      let s := if truthy_json (objects saved)
               then loadFromJSON (objects saved) s else s in
      let s :=
        match truthy (background saved) with
        | Some background =>
          let img := fromURL background in
          let scale := fit_scale (img_width img) in
          let s := with_canvas
                     (setDimensions (mul (img_width img) scale)
                                    (mul (img_height img) scale)) s in
          let img := place_background scale img in
          let s := with_canvas (set_backgroundImage (Some img)) s in
          let s := set_backgroundRef (Some background) s in
          setHasBackground true s
        | None => s
        end in
      match canvasRef s with
      | None => s
      | Some canvas =>
        set_undoStack
          (push (undoStack s) (Some (JSON_stringify_canvas (toJSON canvas)))) s
      end
    end
  end.

(** *** Sequences of operations *)

(** The operations that touch the history log: the three handlers, the timer
    of [loadSnapshot], and an edit of the canvas objects that fires no event
    (a keyboard nudge, a change of layer order). *)
Inductive op :=
| OpSaveHistory
| OpUndo
| OpRedo
| OpRestoreTimeout
| OpEdit (objs : list FabricObject).

Definition step (s : State) (o : op) : State :=
  match o with
  | OpSaveHistory => saveHistory s
  | OpUndo => state_of (undo s)
  | OpRedo => state_of (redo s)
  | OpRestoreTimeout => restoreTimeout s
  | OpEdit objs => with_canvas (set_objects objs) s
  end.

Definition run (ops : list op) (s : State) : State := fold_left step ops s.

(** *** Notions used by the statements *)

(** A stack after [if (a.length > MAX_HISTORY) a.shift()]. *)
Definition capped (a : list slot) : list slot :=
  if length a >? MAX_HISTORY then shift a else a.

(** What the canvas shows, as the snapshot [saveHistory] would take of it. *)
Definition displayed (s : State) : option ImageCanvas :=
  (λ canvas, {| objects := toJSON canvas; background := backgroundRef s |})
    <$> canvasRef s.

(** The canvas after [loadSnapshot] has loaded [snapshot] into it. *)
Definition loaded_canvas (snapshot : ImageCanvas) (canvas : Canvas) : Canvas :=
  match truthy (background snapshot) with
  | Some background =>
    let img := fromURL background in
    let scale := fit_scale (img_width img) in
    {| getObjects := objects snapshot;
       backgroundImage := Some (place_background scale img);
       getWidth := mul (img_width img) scale;
       getHeight := mul (img_height img) scale |}
  | None =>
    {| getObjects := objects snapshot; backgroundImage := None;
       getWidth := getWidth canvas; getHeight := getHeight canvas |}
  end.

(** The state [undo] has reached when it parses the new top: the top entry
    moved to the redo stack. *)
Definition undo_popped (s : State) : State :=
  set_redoStack
    (capped (push (redoStack s) (or_undefined (last (undoStack s)))))
    (set_undoStack (removelast (undoStack s)) s).

(** The state [redo] has reached when it parses the popped entry. *)
Definition redo_popped (s : State) : State :=
  set_undoStack
    (capped (push (undoStack s) (or_undefined (last (redoStack s)))))
    (set_redoStack (removelast (redoStack s)) s).


(** A background reference as the handlers store it: [null] or a non-empty
    string ([onload] and [loadSnapshot] test it before storing). *)
Definition background_ok (bg : option string) : Prop := bg ≠ Some "".

(** The text stored under [canvasDesign] is the snapshot of what the canvas
    shows, and that snapshot is the top of the undo stack. *)
Definition persisted_is_displayed (s : State) : Prop :=
  ∃ snapshot,
    displayed s = Some snapshot ∧
    localStorage s !! "canvasDesign" = Some (JSON_stringify snapshot) ∧
    last (undoStack s) = Some (Some (JSON_stringify snapshot)).

(** An entry the handlers push in normal operation: a snapshot text whose
    background reference is a stored one. *)
Definition entry_ok (x : slot) : Prop :=
  ∃ t, x = Some t ∧ background_ok (background (parse t)).

(** The history log and the canvas agree: every entry is a snapshot, and the
    canvas shows the snapshot on top of the undo stack. *)
Definition consistent (s : State) : Prop :=
  Forall entry_ok (undoStack s) ∧
  Forall entry_ok (redoStack s) ∧
  background_ok (backgroundRef s) ∧
  ∀ t, last (undoStack s) = Some (Some t) → displayed s = Some (parse t).

(** The states the history handlers lead to when Undo is only used while
    [updateStackStates] enables it. *)
Inductive history_run (s : State) : State → Prop :=
| run_start : history_run s s
| run_saveHistory s' : history_run s s' → history_run s (saveHistory s')
| run_undo s' :
    history_run s s' → length (undoStack s') > 1 →
    history_run s (state_of (undo s'))
| run_redo s' : history_run s s' → history_run s (state_of (redo s'))
| run_restoreTimeout s' : history_run s s' → history_run s (restoreTimeout s').

End CanvasEditor.
End Editor.

(** ** The editor as a whole: a session of events *)

Module EditorSession.
Import JsArray Editor.

Section Session.
Context {num : Type} `{Number num}.
#[local] Abbreviation State := (Editor.State (num := num)).
#[local] Abbreviation FabricObject := (Editor.FabricObject (num := num)).
#[local] Abbreviation Canvas := (Editor.Canvas (num := num)).
#[local] Abbreviation slot := (Editor.slot (num := num)).

Variable fromURL : string → FabricImage (num := num).

(** [new fabric.Textbox("Edit me", { left: 50, top: 50, ... })]; the
    library's default scale is 1. *)
Definition new_Textbox : FabricObject :=
  {| text := "Edit me"; scaleX := Some (lit 1); scaleY := Some (lit 1);
     left := Some (lit 50); top := Some (lit 50) |}.

(** [addText]: [canvas.add(text)] fires [object:added]. *)
Definition addText (s : State) : State :=
  match canvasRef s with
  | None => s
  | Some _ => canvas_add [new_Textbox] s
  end.

(** The [i]-th object replaced by [o]; nothing changes out of range. *)
Definition replace_object (i : nat) (o : FabricObject) (c : Canvas) : Canvas :=
  set_objects (<[i := o]> (getObjects c)) c.

(** Library model: a gesture on the canvas (a drag, with the snap to the
    centre, a resize, a rotation, typing into a text box) turns the object it
    holds, the [i]-th, into [o] and fires [object:modified], on which the
    mount effect registers [saveHistory]. *)
Definition object_modified (i : nat) (o : FabricObject) (s : State) : State :=
  match canvasRef s with
  | None => s
  | Some canvas =>
    match getObjects canvas !! i with
    | None => s
    | Some _ => saveHistory (with_canvas (replace_object i o) s)
    end
  end.

(** [handleKey] on an arrow key: the active object of the canvas, the
    [i]-th, gets a new [top] or [left], which makes it [o]; no event is
    fired. *)
Definition handleKey (i : nat) (o : FabricObject) (s : State) : State :=
  with_canvas (replace_object i o) s.

(** The state of the first render on a page with nothing stored, once the
    mount effect has created the canvas. *)
Definition fresh : State :=
  {| canvasRef := Some new_Canvas; imgOriginal := None;
     backgroundRef := None; undoStack := []; redoStack := [];
     isRestoring := false; hasBackground := false;
     canUndo := false; canRedo := false; localStorage := ∅ |}.

(** What happens to a mounted editor: an upload is answered by the file
    reader, a control is clicked, the user changes an object on the canvas
    or nudges one with an arrow key, the timer of [loadSnapshot] fires. *)
Inductive event :=
| Uploaded (files : list (option string))
| AddTextClicked
| ObjectModified (i : nat) (o : FabricObject)
| ArrowPressed (i : nat) (o : FabricObject)
| UndoClicked
| RedoClicked
| ResetClicked
| RestoreTimeout.

(** A control acts only while it is enabled: the file input while
    [hasBackground] is false, Add Text and Reset while it is true, Undo while
    [canUndo] and Redo while [canRedo]. *)
Definition handle (e : event) (s : State) : State :=
  match e with
  | Uploaded files => if hasBackground s then s else handleUpload fromURL files s
  | AddTextClicked => if hasBackground s then addText s else s
  | ObjectModified i o => object_modified i o s
  | ArrowPressed i o => handleKey i o s
  | UndoClicked => if canUndo s then state_of (undo fromURL s) else s
  | RedoClicked => if canRedo s then state_of (redo fromURL s) else s
  | ResetClicked => if hasBackground s then reset s else s
  | RestoreTimeout => restoreTimeout s
  end.

Definition session (events : list event) : State :=
  fold_left (λ s e, handle e s) events fresh.

(** A history entry taken while [src] was the background. *)
Definition entry_of (src : string) (x : slot) : Prop :=
  ∃ objs, x = Some (JSON_stringify {| objects := objs; background := Some src |}).

(** The canvas shows the image of [src], fitted. *)
Definition shows (src : string) (c : Canvas) : Prop :=
  let img := fromURL src in
  let scale := fit_scale (img_width img) in
  backgroundImage c = Some (place_background scale img) ∧
  getWidth c = mul (img_width img) scale ∧
  getHeight c = mul (img_height img) scale.

(** What every session keeps: the two buttons reflect the stacks; without a
    background there is nothing on the canvas and nothing in the history;
    with one, the canvas, the recorded original size and every history entry
    belong to the same image. *)
Definition session_ok (s : State) : Prop :=
  canUndo s = (length (undoStack s) >? 1) ∧
  canRedo s = (length (redoStack s) >? 0) ∧
  ∃ c, canvasRef s = Some c ∧
    if hasBackground s then
      ∃ src, src ≠ "" ∧ backgroundRef s = Some src ∧
        imgOriginal s = Some {| width := img_width (fromURL src);
                                height := img_height (fromURL src) |} ∧
        shows src c ∧
        Forall (entry_of src) (undoStack s) ∧
        Forall (entry_of src) (redoStack s)
    else
      backgroundRef s = None ∧ getObjects c = [] ∧
      undoStack s = [] ∧ redoStack s = [].

(** The design stored for the next visit goes with the display: nothing is
    stored while there is no background, and what is stored was taken with
    the background reference of the display. *)
Definition stored_ok (s : State) : Prop :=
  match localStorage s !! "canvasDesign" with
  | None => hasBackground s = false
  | Some t =>
    hasBackground s = true ∧
    ∃ objs, t = JSON_stringify {| objects := objs; background := backgroundRef s |}
  end.

End Session.
End EditorSession.

(** ** The wallet panel *)

Module Wallet.

(** A promise that resolves with a value or rejects with an error carrying a
    [message]; also a library call that returns or throws. *)
Inductive result (A : Type) :=
| Ok (a : A)
| Error (message : string).
Arguments Ok {A} a.
Arguments Error {A} message.

(** [sendForm] *)
Record SendForm := { to : string; amount : string; gasPrice : string }.

(** An entry of [transactions]. *)
Record TransactionRecord := {
  hash : string;
  tx_to : string;
  tx_amount : string;
  tx_type : string;
  timestamp : string
}.

(** [message] *)
Record Message := { type : string; text : string }.

(** The argument of [web3.eth.estimateGas]. *)
Record CallRequest := { call_from : string; call_to : string; call_value : string }.

(** The [transaction] object handed to [web3.eth.sendTransaction]. *)
Record TransactionRequest := {
  req_from : string;
  req_to : string;
  req_value : string;
  req_gas : string;
  req_gasPrice : string
}.

Record Receipt := { transactionHash : string }.

(** The requests [web3.eth] forwards to the injected provider. *)
Inductive Rpc :=
| eth_estimateGas (request : CallRequest)
| eth_sendTransaction (transaction : TransactionRequest)
| eth_getBalance (address : string).

(** Library model: a [Web3] instance over the injected provider.  [utils] are
    local computations, [eth] methods are answered by the provider. *)
Record Web3 := {
  isAddress : string → bool;
  toWei : string → string → result string;
  fromWei : string → string → string;
  estimateGas : CallRequest → result string;
  sendTransaction_rpc : TransactionRequest → result Receipt;
  getBalance : string → result string
}.

Section WalletInterface.
Context {num : Type} `{Number num}.

(** Library model: [parseFloat(x)] and [n.toFixed(digits)]. *)
Variable parseFloat : string → num.
Variable toFixed : num → nat → string.

(** The component's state variables. *)
Record State := {
  web3 : option Web3;
  account : option string;
  balance : string;
  balanceUSD : string;
  isConnected : bool;
  loading : bool;
  message : Message;
  sendForm : SendForm;
  transactions : list TransactionRecord;
  ethPrice : num;
  networkId : option string;
  isCorrectNetwork : bool
}.

Definition set_balance (v : string) (s : State) : State :=
  {| web3 := web3 s; account := account s; balance := v;
     balanceUSD := balanceUSD s; isConnected := isConnected s;
     loading := loading s; message := message s; sendForm := sendForm s;
     transactions := transactions s; ethPrice := ethPrice s;
     networkId := networkId s; isCorrectNetwork := isCorrectNetwork s |}.

Definition set_balanceUSD (v : string) (s : State) : State :=
  {| web3 := web3 s; account := account s; balance := balance s;
     balanceUSD := v; isConnected := isConnected s;
     loading := loading s; message := message s; sendForm := sendForm s;
     transactions := transactions s; ethPrice := ethPrice s;
     networkId := networkId s; isCorrectNetwork := isCorrectNetwork s |}.

Definition set_loading (v : bool) (s : State) : State :=
  {| web3 := web3 s; account := account s; balance := balance s;
     balanceUSD := balanceUSD s; isConnected := isConnected s;
     loading := v; message := message s; sendForm := sendForm s;
     transactions := transactions s; ethPrice := ethPrice s;
     networkId := networkId s; isCorrectNetwork := isCorrectNetwork s |}.

Definition set_message (v : Message) (s : State) : State :=
  {| web3 := web3 s; account := account s; balance := balance s;
     balanceUSD := balanceUSD s; isConnected := isConnected s;
     loading := loading s; message := v; sendForm := sendForm s;
     transactions := transactions s; ethPrice := ethPrice s;
     networkId := networkId s; isCorrectNetwork := isCorrectNetwork s |}.

Definition set_sendForm (v : SendForm) (s : State) : State :=
  {| web3 := web3 s; account := account s; balance := balance s;
     balanceUSD := balanceUSD s; isConnected := isConnected s;
     loading := loading s; message := message s; sendForm := v;
     transactions := transactions s; ethPrice := ethPrice s;
     networkId := networkId s; isCorrectNetwork := isCorrectNetwork s |}.

Definition set_transactions (v : list TransactionRecord) (s : State) : State :=
  {| web3 := web3 s; account := account s; balance := balance s;
     balanceUSD := balanceUSD s; isConnected := isConnected s;
     loading := loading s; message := message s; sendForm := sendForm s;
     transactions := v; ethPrice := ethPrice s;
     networkId := networkId s; isCorrectNetwork := isCorrectNetwork s |}.

(** *** Handlers as computations

    A handler transforms the state, may end in an exception, and issues
    requests to the provider, which are collected in order. *)
Definition M (A : Type) : Type := State → result A * State * list Rpc.

#[local] Instance M_ret : MRet M := λ A a s, (Ok a, s, []).

#[local] Instance M_bind : MBind M := λ A B k m s,
  match m s with
  | (Ok a, s, issued) =>
    let '(r, s, issued') := k a s in (r, s, issued ++ issued')
  | (Error e, s, issued) => (Error e, s, issued)
  end.

(** A state update ([setX(...)]). *)
Definition update (f : State → State) : M unit := λ s, (Ok tt, f s, []).

(** A library call that may throw. *)
Definition call {A} (r : result A) : M A := λ s, (r, s, []).

(** [await] of a request to the provider and of its answer. *)
Definition await {A} (request : Rpc) (answer : result A) : M A :=
  λ s, (answer, s, [request]).

(** [try { body } catch (error) { handler(error.message) }] *)
Definition try_catch {A} (body : M A) (handler : string → M A) : M A := λ s,
  match body s with
  | (Ok a, s, issued) => (Ok a, s, issued)
  | (Error e, s, issued) =>
    let '(r, s, issued') := handler e s in (r, s, issued ++ issued')
  end.

(** [try { body } finally { final }] *)
Definition try_finally {A} (body : M A) (final : M unit) : M A := λ s,
  let '(r, s, issued) := body s in
  match final s with
  | (Ok _, s, issued') => (r, s, issued ++ issued')
  | (Error e, s, issued') => (Error e, s, issued ++ issued')
  end.

(** [showMessage(type, text)]; the timer that blanks the message five
    seconds later is [clearMessage]. *)
Definition showMessage (type text : string) : M unit :=
  update (set_message {| type := type; text := text |}).

Definition clearMessage (s : State) : State :=
  set_message {| type := ""; text := "" |} s.

Definition setLoading (v : bool) : M unit := update (set_loading v).
Definition setBalance (v : string) : M unit := update (set_balance v).
Definition setBalanceUSD (v : string) : M unit := update (set_balanceUSD v).
Definition setSendForm (v : SendForm) : M unit := update (set_sendForm v).
Definition setTransactions
    (f : list TransactionRecord → list TransactionRecord) : M unit :=
  update (λ s, set_transactions (f (transactions s)) s).

(** [updateBalance], for the [web3], [account] and [ethPrice] of the render
    whose closure runs it.  Its [catch] only logs to the console. *)
Definition updateBalance (s0 : State) : M unit :=
  match web3 s0, truthy (account s0) with
  | Some web3, Some account =>
    try_catch
      (balanceWei ← await (eth_getBalance account) (getBalance web3 account);
       let balanceEth := fromWei web3 balanceWei "ether" in
       setBalance (toFixed (parseFloat balanceEth) 4);;
       if gtb (ethPrice s0) (lit 0) then
         let usdValue := toFixed (mul (parseFloat balanceEth) (ethPrice s0)) 2 in
         setBalanceUSD usdValue
       else mret tt)
      (λ error, mret tt)
  | _, _ => mret tt
  end.

(** [sendTransaction], for the render state [s0] captured by its closure;
    [now] is [new Date().toISOString()].  [updateBalance()] is started
    without [await]; its effects are placed where it is started. *)
Definition sendTransaction (now : string) (s0 : State) : M unit :=
  let sendForm := sendForm s0 in
  match web3 s0, truthy (account s0) with
  | Some web3, Some account =>
    if falsy (to sendForm) || falsy (amount sendForm) then
      showMessage "error" "Please fill in all fields"
    else if negb (isAddress web3 (to sendForm)) then
      showMessage "error" "Invalid recipient address"
    else
      setLoading true;;
      try_finally
        (try_catch
           (amountWei ← call (toWei web3 (amount sendForm) "ether");
            gasPrice ← call (toWei web3 (gasPrice sendForm) "gwei");
            let request := {| call_from := account;
                              call_to := to sendForm;
                              call_value := amountWei |} in
            gasEstimate ← await (eth_estimateGas request) (estimateGas web3 request);
            let transaction := {| req_from := account;
                                  req_to := to sendForm;
                                  req_value := amountWei;
                                  req_gas := gasEstimate;
                                  req_gasPrice := gasPrice |} in
            receipt ← await (eth_sendTransaction transaction)
                            (sendTransaction_rpc web3 transaction);
            let newTransaction := {| hash := transactionHash receipt;
                                     tx_to := to sendForm;
                                     tx_amount := amount sendForm;
                                     tx_type := "sent";
                                     timestamp := now |} in
            setTransactions (λ prev, newTransaction :: prev);;
            showMessage "success"
              ("Transaction sent successfully! Hash: " +:+ transactionHash receipt);;
            setSendForm {| to := ""; amount := ""; gasPrice := "20" |};;
            updateBalance s0)
           (λ error, showMessage "error" ("Transaction failed: " +:+ error)))
        (setLoading false)
  | _, _ => showMessage "error" "Please connect your wallet first"
  end.

(** The handler run on the current state: the closure was created by the
    render that shows this state. *)
Definition click_send (now : string) (s : State) : result unit * State * list Rpc :=
  sendTransaction now s s.

End WalletInterface.
End Wallet.

(** ** The wallet panel: connection, network and display helpers *)

Module WalletConnection.
Import Wallet.

(** [formatAddress]; [slice] and [slice_end] are [s.slice(from, to)] for
    [0 <= from <= to] and [s.slice(-n)]. *)
Definition slice (s : string) (from to : nat) : string :=
  String.substring from (to - from) s.

Definition slice_end (s : string) (n : nat) : string :=
  String.substring (String.length s - n) n s.

Definition formatAddress (address : option string) : string :=
  match truthy address with
  | None => ""
  | Some address => slice address 0 6 +:+ "..." +:+ slice_end address 4
  end.

(** The value of a property read from an object literal: one of its own
    entries, or a member inherited from [Object.prototype]. *)
Inductive member :=
| own (value : string)
| inherited (key : string).

(** The property names every object literal inherits. *)
Definition Object_prototype : list string :=
  ["constructor"; "__defineGetter__"; "__defineSetter__"; "hasOwnProperty";
   "__lookupGetter__"; "__lookupSetter__"; "isPrototypeOf";
   "propertyIsEnumerable"; "toString"; "valueOf"; "__proto__";
   "toLocaleString"].

(** [o[key]] on an object literal with string values. *)
Definition get (o : gmap string string) (key : string) : option member :=
  match o !! key with
  | Some value => Some (own value)
  | None => if bool_decide (key ∈ Object_prototype) then Some (inherited key) else None
  end.

(** The [networks] table of [getNetworkName]. *)
Definition networks : gmap string string :=
  <["0x1" := "Ethereum Mainnet"]>
    (<["0x5" := "Goerli Testnet"]>
       (<["0xaa36a7" := "Sepolia Testnet"]> ∅)).

(** [getNetworkName]: [networks[chainId] || `Unknown Network (${chainId})`].
    A string is falsy when empty; an inherited member is a function or an
    object, hence truthy. *)
Definition getNetworkName (chainId : string) : member :=
  let unknown := own ("Unknown Network (" +:+ chainId +:+ ")") in
  match get networks chainId with
  | Some (own name) => if falsy name then unknown else own name
  | Some (inherited key) => inherited key
  | None => unknown
  end.

(** The [supportedNetworks] array of [checkNetwork]. *)
Definition supportedNetworks : list string := ["0x1"; "0x5"; "0xaa36a7"].

(** An error thrown by the provider; [code] is missing on errors that are not
    provider errors. *)
Record ProviderError := { code : option Z; error_message : string }.

Inductive response (A : Type) :=
| Resolved (a : A)
| Rejected (error : ProviderError).
Arguments Resolved {A} a.
Arguments Rejected {A} error.

(** [window.ethereum]: its answers to the three requests the panel makes and
    the instance [new Web3(window.ethereum)] builds over it. *)
Record Ethereum := {
  eth_accounts : response (list string);
  eth_requestAccounts : response (list string);
  eth_chainId : response string;
  new_Web3 : Web3
}.

(** What a handler asks of [window.ethereum]: a request, or the registration
    of a listener. *)
Inductive ProviderCall :=
| request (method : string)
| on (event : string).

Section Connection.
Context {num : Type} `{Number num}.
#[local] Abbreviation State := (Wallet.State (num := num)).

(** Library model: the text a template literal gives for an inherited
    member. *)
Variable show_inherited : string → string.

Definition show (m : member) : string :=
  match m with
  | own value => value
  | inherited key => show_inherited key
  end.

Definition set_web3 (v : option Web3) (s : State) : State :=
  {| web3 := v; account := account s; balance := balance s;
     balanceUSD := balanceUSD s; isConnected := isConnected s;
     loading := loading s; message := message s; sendForm := sendForm s;
     transactions := transactions s; ethPrice := ethPrice s;
     networkId := networkId s; isCorrectNetwork := isCorrectNetwork s |}.

Definition set_account (v : option string) (s : State) : State :=
  {| web3 := web3 s; account := v; balance := balance s;
     balanceUSD := balanceUSD s; isConnected := isConnected s;
     loading := loading s; message := message s; sendForm := sendForm s;
     transactions := transactions s; ethPrice := ethPrice s;
     networkId := networkId s; isCorrectNetwork := isCorrectNetwork s |}.

Definition set_isConnected (v : bool) (s : State) : State :=
  {| web3 := web3 s; account := account s; balance := balance s;
     balanceUSD := balanceUSD s; isConnected := v;
     loading := loading s; message := message s; sendForm := sendForm s;
     transactions := transactions s; ethPrice := ethPrice s;
     networkId := networkId s; isCorrectNetwork := isCorrectNetwork s |}.

Definition set_networkId (v : option string) (s : State) : State :=
  {| web3 := web3 s; account := account s; balance := balance s;
     balanceUSD := balanceUSD s; isConnected := isConnected s;
     loading := loading s; message := message s; sendForm := sendForm s;
     transactions := transactions s; ethPrice := ethPrice s;
     networkId := v; isCorrectNetwork := isCorrectNetwork s |}.

Definition set_isCorrectNetwork (v : bool) (s : State) : State :=
  {| web3 := web3 s; account := account s; balance := balance s;
     balanceUSD := balanceUSD s; isConnected := isConnected s;
     loading := loading s; message := message s; sendForm := sendForm s;
     transactions := transactions s; ethPrice := ethPrice s;
     networkId := networkId s; isCorrectNetwork := v |}.

(** [showMessage(type, text)] as a state update. *)
Definition show_message (type text : string) (s : State) : State :=
  set_message {| type := type; text := text |} s.

(** [checkNetwork] *)
Definition checkNetwork (chainId : string) (s : State) : State :=
  let isSupported := bool_decide (chainId ∈ supportedNetworks) in
  let s := set_isCorrectNetwork isSupported s in
  if negb isSupported then
    show_message "error"
      ("Unsupported network. Please switch to Ethereum Mainnet, Goerli, or Sepolia testnet. Current: "
       +:+ show (getNetworkName chainId)) s
  else s.

(** The message [connectWallet] shows for a rejected request. *)
Definition connect_error (error : ProviderError) : string :=
  if bool_decide (code error = Some 4001%Z) then
    "Connection rejected. Please approve the connection in MetaMask."
  else if bool_decide (code error = Some (-32002)%Z) then
    "Connection request already pending. Please check MetaMask."
  else "Failed to connect wallet: " +:+ error_message error.

(** [connectWallet], on the state of the render whose closure runs it;
    [ethereum] is [window.ethereum].  The result lists what was asked of the
    provider, in order. *)
Definition connectWallet (ethereum : option Ethereum) (s : State)
    : State * list ProviderCall :=
  let web3 := web3 s in
  let s := set_loading true s in
  match ethereum with
  | None =>
    let s := show_message "error"
               "MetaMask is not installed. Please install MetaMask browser extension to use this wallet." s in
    (set_loading false s, [])
  | Some ethereum =>
    let '(s, calls) :=
      match eth_requestAccounts ethereum with
      | Resolved accounts =>
        match accounts with
        | [] => (s, [request "eth_requestAccounts"])
        | account0 :: _ =>
          let s := if web3 is None then set_web3 (Some (new_Web3 ethereum)) s else s in
          let s := set_account (Some account0) s in
          let s := set_isConnected true s in
          let s := show_message "success" "Wallet connected successfully!" s in
          (s, [request "eth_requestAccounts"; on "accountsChanged"; on "chainChanged"])
        end
      | Rejected error =>
        (show_message "error" (connect_error error) s,
         [request "eth_requestAccounts"])
      end in
    (set_loading false s, calls)
  end.

(** The [accountsChanged] listener registered by [connectWallet]. *)
Definition accountsChanged (newAccounts : list string) (s : State) : State :=
  match newAccounts with
  | account0 :: _ => set_account (Some account0) s
  | [] =>
    let s := set_account None s in
    let s := set_isConnected false s in
    set_web3 None s
  end.

(** The [chainChanged] listener registered by [connectWallet]. *)
Definition chainChanged (chainId : string) (s : State) : State :=
  let s := set_networkId (Some chainId) s in
  checkNetwork chainId s.

(** [initializeWeb3], run by the mount effect. *)
Definition initializeWeb3 (ethereum : option Ethereum) (s : State)
    : State * list ProviderCall :=
  match ethereum with
  | None => (s, [])
  | Some ethereum =>
    let failed :=
      show_message "error"
        "Failed to initialize Web3. Please refresh the page and try again." in
    let s := set_web3 (Some (new_Web3 ethereum)) s in
    match eth_accounts ethereum with
    | Rejected _ => (failed s, [request "eth_accounts"])
    | Resolved accounts =>
      let s := match accounts with
               | account0 :: _ => set_isConnected true (set_account (Some account0) s)
               | [] => s
               end in
      match eth_chainId ethereum with
      | Rejected _ => (failed s, [request "eth_accounts"; request "eth_chainId"])
      | Resolved chainId =>
        let s := set_networkId (Some chainId) s in
        (checkNetwork chainId s, [request "eth_accounts"; request "eth_chainId"])
      end
    end
  end.

End Connection.
End WalletConnection.

(** ** The wallet panel as a whole: a session of events *)

Module WalletPanel.
Import Wallet WalletConnection.

Section Panel.
Context {num : Type} `{Number num}.
#[local] Abbreviation State := (Wallet.State (num := num)).

Variable parseFloat : string → num.
Variable toFixed : num → nat → string.
Variable show_inherited : string → string.

Definition set_ethPrice (v : num) (s : State) : State :=
  {| web3 := web3 s; account := account s; balance := balance s;
     balanceUSD := balanceUSD s; isConnected := isConnected s;
     loading := loading s; message := message s; sendForm := sendForm s;
     transactions := transactions s; ethPrice := v;
     networkId := networkId s; isCorrectNetwork := isCorrectNetwork s |}.

(** The state of the first render: the arguments of the [useState] calls. *)
Definition initial : State :=
  {| web3 := None; account := None; balance := "0"; balanceUSD := "0";
     isConnected := false; loading := false;
     message := {| type := ""; text := "" |};
     sendForm := {| to := ""; amount := ""; gasPrice := "20" |};
     transactions := []; ethPrice := lit 0;
     networkId := None; isCorrectNetwork := true |}.

(** The component and the provider's listener table: the events for which
    [window.ethereum.on] was called, one entry per call. *)
Record Panel := { state : State; listeners : list string }.

(** The listeners a handler registered, in order. *)
Definition registrations (calls : list ProviderCall) : list string :=
  omap (λ c, match c with on event => Some event | request _ => None end) calls.

(** The number of listeners registered for [event]. *)
Definition listening (event : string) (p : Panel) : nat :=
  length (filter (λ e, e = event) (listeners p)).

(** What happens to a mounted panel.  Clicks and edits carry what the user
    or the clock supplies, and provider events what the provider reports;
    [ethereum] is [window.ethereum] at the time of the click. *)
Inductive event :=
| ConnectClicked (ethereum : option Ethereum)
| SendClicked (now : string)
| CopyClicked
| ToEdited (value : string)
| AmountEdited (value : string)
| GasPriceEdited (value : string)
| AccountsChanged (newAccounts : list string)
| ChainChanged (chainId : string)
| PriceFetched (usd : num)
| AccountEffect
| MessageTimeout.

(** [copyAddress], without the clipboard. *)
Definition copyAddress (s : State) : State :=
  match truthy (account s) with
  | Some _ => show_message "success" "Address copied to clipboard!" s
  | None => s
  end.

(** The effect on [account, web3]. *)
Definition accountEffect (s : State) : State :=
  match truthy (account s), web3 s with
  | Some _, Some _ => (updateBalance parseFloat toFixed s s).1.2
  | _, _ => s
  end.

Definition with_state (f : State → State) (p : Panel) : Panel :=
  {| state := f (state p); listeners := listeners p |}.

(** A control acts only in the view that renders it: the connect button when
    [isConnected] is false, the send form and the copy buttons when it is
    true; both buttons are disabled while [loading]. *)
Definition handle (e : event) (p : Panel) : Panel :=
  let s := state p in
  match e with
  | ConnectClicked ethereum =>
    if negb (isConnected s) && negb (loading s) then
      let '(s', calls) := connectWallet ethereum s in
      {| state := s'; listeners := listeners p ++ registrations calls |}
    else p
  | SendClicked now =>
    if isConnected s && negb (loading s) then
      with_state (λ s, (click_send parseFloat toFixed now s).1.2) p
    else p
  | CopyClicked =>
    if isConnected s then with_state copyAddress p else p
  | ToEdited value =>
    if isConnected s then
      with_state (set_sendForm {| to := value; amount := amount (sendForm s);
                                  gasPrice := gasPrice (sendForm s) |}) p
    else p
  | AmountEdited value =>
    if isConnected s then
      with_state (set_sendForm {| to := to (sendForm s); amount := value;
                                  gasPrice := gasPrice (sendForm s) |}) p
    else p
  | GasPriceEdited value =>
    if isConnected s then
      with_state (set_sendForm {| to := to (sendForm s);
                                  amount := amount (sendForm s);
                                  gasPrice := value |}) p
    else p
  | AccountsChanged newAccounts =>
    with_state (Nat.iter (listening "accountsChanged" p)
                         (accountsChanged newAccounts)) p
  | ChainChanged chainId =>
    with_state (Nat.iter (listening "chainChanged" p)
                         (chainChanged show_inherited chainId)) p
  | PriceFetched usd => with_state (set_ethPrice usd) p
  | AccountEffect => with_state accountEffect p
  | MessageTimeout => with_state clearMessage p
  end.

Definition run (events : list event) (p : Panel) : Panel :=
  fold_left (λ p e, handle e p) events p.

(** The mount effect: [initializeWeb3] on the first render. *)
Definition mount (ethereum : option Ethereum) : Panel :=
  let '(s, calls) := initializeWeb3 show_inherited ethereum initial in
  {| state := s; listeners := registrations calls |}.

(** A session: the panel is mounted, then events arrive. *)
Definition session (ethereum : option Ethereum) (events : list event) : Panel :=
  run events (mount ethereum).

Definition is_send (e : event) : bool :=
  match e with SendClicked _ => true | _ => false end.

Definition is_connect (e : event) : bool :=
  match e with ConnectClicked _ => true | _ => false end.

(** The fields of the connection and of the network. *)
Definition connection (s : State) :=
  (web3 s, account s, isConnected s, networkId s, isCorrectNetwork s).

(** The connected view has what it shows and needs. *)
Definition connected_ok (s : State) : Prop :=
  isConnected s = true → is_Some (web3 s) ∧ is_Some (account s).

(** The network fields agree: the warning is off until a chain id is
    recorded, and then it is on exactly for an unsupported one. *)
Definition network_ok (s : State) : Prop :=
  match networkId s with
  | None => isCorrectNetwork s = true
  | Some chainId => isCorrectNetwork s = bool_decide (chainId ∈ supportedNetworks)
  end.

End Panel.
End WalletPanel.

(** ** Sample inputs, over exact rationals *)

Module Samples.
Import Editor.

(** A 1200 by 800 image behind every data URL. *)
Definition fromURL (src : string) : FabricImage :=
  {| getSrc := src; img_width := lit 1200; img_height := lit 800;
     img_originX := "left"; img_originY := "top";
     img_left := lit 0; img_top := lit 0;
     img_scaleX := lit 1; img_scaleY := lit 1 |}.

Definition png : string := "data:image/png;base64,iVBORw0KGgo=".

(** The component once mounted, nothing stored. *)
Definition mounted : State (num := Q) :=
  {| canvasRef := Some new_Canvas; imgOriginal := None;
     backgroundRef := None; undoStack := []; redoStack := [];
     isRestoring := false; hasBackground := false;
     canUndo := false; canRedo := false; localStorage := ∅ |}.

(** The text box [addText] creates, and a second one moved and scaled. *)
Definition textbox : FabricObject (num := Q) :=
  {| text := "Edit me"; scaleX := Some (lit 1); scaleY := Some (lit 1);
     left := Some (lit 50); top := Some (lit 50) |}.

Definition caption : FabricObject (num := Q) :=
  {| text := "Caption"; scaleX := Some (lit 2); scaleY := Some (lit 3);
     left := Some (lit 120); top := Some (lit 300) |}.

Definition uploaded : State := handleUpload fromURL [Some png] mounted.

(** One text box added, then a second: two recorded edits. *)
Definition one_edit : State := canvas_add [textbox] uploaded.
Definition two_edits : State := canvas_add [caption] one_edit.

Definition first_snapshot : JsonText (num := Q) :=
  JSON_stringify {| objects := [textbox]; background := Some png |}.
Definition second_snapshot : JsonText (num := Q) :=
  JSON_stringify {| objects := [textbox; caption]; background := Some png |}.

Definition undone : State := state_of (undo fromURL two_edits).

(** The second text box moved down one pixel with an arrow key, which fires
    no event. *)
Definition nudged_caption : FabricObject (num := Q) :=
  {| text := "Caption"; scaleX := Some (lit 2); scaleY := Some (lit 3);
     left := Some (lit 120); top := Some (lit 301) |}.

Definition nudged : State := EditorSession.handleKey 1 nudged_caption two_edits.

(** The page opened again on the storage that [one_edit] left, and a second
    text box added there. *)
Definition restored : State := mount fromURL (unmounted (localStorage one_edit)).
Definition restored_edit : State := canvas_add [caption] restored.

(** A provider that accepts everything, and one that rejects the send. *)
Definition provider (accept : bool) : Wallet.Web3 :=
  {| Wallet.isAddress a := String.eqb a "0x52908400098527886E0F7030069857D2E4169EE7";
     Wallet.toWei v unit := Wallet.Ok (v +:+ " " +:+ unit);
     Wallet.fromWei v unit := v;
     Wallet.estimateGas _ := Wallet.Ok "21000";
     Wallet.sendTransaction_rpc _ :=
       if accept then Wallet.Ok {| Wallet.transactionHash := "0x9fc7" |}
       else Wallet.Error "insufficient funds";
     Wallet.getBalance _ := Wallet.Ok "41" |}.

Definition parseFloat (x : string) : Q := lit (String.length x).
Definition toFixed (n : Q) (digits : nat) : string :=
  if Qeq_bool n (lit 2) then "2.0000" else "0.0000".

Definition filled_form : Wallet.SendForm :=
  {| Wallet.to := "0x52908400098527886E0F7030069857D2E4169EE7";
     Wallet.amount := "1"; Wallet.gasPrice := "20" |}.

Definition sent_before : Wallet.TransactionRecord :=
  {| Wallet.hash := "0x11aa"; Wallet.tx_to := "0x00"; Wallet.tx_amount := "3";
     Wallet.tx_type := "sent"; Wallet.timestamp := "2024-01-01T00:00:00.000Z" |}.

Definition connected (accept : bool) : Wallet.State (num := Q) :=
  {| Wallet.web3 := Some (provider accept);
     Wallet.account := Some "0xde0B295669a9FD93d5F28D9Ec85E40f4cb697BAe";
     Wallet.balance := "0"; Wallet.balanceUSD := "0";
     Wallet.isConnected := true; Wallet.loading := false;
     Wallet.message := {| Wallet.type := ""; Wallet.text := "" |};
     Wallet.sendForm := filled_form;
     Wallet.transactions := [sent_before];
     Wallet.ethPrice := lit 0;
     Wallet.networkId := Some "0x1"; Wallet.isCorrectNetwork := true |}.

Definition empty_recipient : Wallet.State (num := Q) :=
  Wallet.set_sendForm
    {| Wallet.to := ""; Wallet.amount := "1"; Wallet.gasPrice := "20" |}
    (connected true).

Definition clock : string := "2024-05-01T12:00:00.000Z".

(** The request [sendTransaction] builds from [filled_form] with the sample
    provider's conversions. *)
Definition sample_request : Wallet.TransactionRequest :=
  {| Wallet.req_from := "0xde0B295669a9FD93d5F28D9Ec85E40f4cb697BAe";
     Wallet.req_to := "0x52908400098527886E0F7030069857D2E4169EE7";
     Wallet.req_value := "1 ether";
     Wallet.req_gas := "21000";
     Wallet.req_gasPrice := "20 gwei" |}.

End Samples.

(** ** Sample providers and sessions of the wallet panel *)

Module PanelSamples.
Import Wallet WalletConnection WalletPanel.

Definition show_inherited (key : string) : string :=
  "function " +:+ key +:+ "() { [native code] }".

Definition first_account : string := "0xde0B295669a9FD93d5F28D9Ec85E40f4cb697BAe".
Definition second_account : string := "0x8617E340B3D01FA5F11F306F4090FD50E238070D".

(** A provider with two unlocked accounts on the main network. *)
Definition unlocked : Ethereum :=
  {| eth_accounts := Resolved [first_account; second_account];
     eth_requestAccounts := Resolved [first_account; second_account];
     eth_chainId := Resolved "0x1";
     new_Web3 := Samples.provider true |}.

(** A provider whose user closes the connection prompt. *)
Definition refusing : Ethereum :=
  {| eth_accounts := Resolved [];
     eth_requestAccounts :=
       Rejected {| code := Some 4001%Z;
                   error_message := "User rejected the request." |};
     eth_chainId := Resolved "0x89";
     new_Web3 := Samples.provider true |}.

(** A provider that reports an account and then fails on the chain id. *)
Definition flaky : Ethereum :=
  {| eth_accounts := Resolved [first_account];
     eth_requestAccounts := Resolved [first_account];
     eth_chainId :=
       Rejected {| code := Some (-32603)%Z; error_message := "Internal error" |};
     new_Web3 := Samples.provider true |}.

(** The panel of a page opened on [refusing], not yet connected. *)
Definition fresh : State (num := Q) :=
  state (mount show_inherited (Some refusing)).

(** The user connects after the prompt was closed once. *)
Definition connects : list (event (num := Q)) :=
  [ConnectClicked (Some refusing); ConnectClicked (Some unlocked)].

(** The provider reports account and chain changes. *)
Definition provider_changes : list (event (num := Q)) :=
  [AccountsChanged [second_account]; ChainChanged "0x89"; AccountsChanged []].

End PanelSamples.

Module EditorFacts.
Import JsArray Editor.

Section Facts.
Context {num : Type} `{Number num}.
Variable fromURL : string → FabricImage (num := num).

Implicit Types (s : State (num := num)) (c canvas : Canvas (num := num)).
Implicit Types (a u r : list (slot (num := num))) (x : slot (num := num)).
Implicit Types (v p t : JsonText (num := num)).
Implicit Types (snapshot : ImageCanvas (num := num)).

(** **** The library model under [isRestoring] *)

Lemma saveHistory_restoring s : isRestoring s = true → saveHistory s = s.
Proof. intros Hr. unfold saveHistory. by rewrite Hr. Qed.

Lemma with_canvas_compose f g s :
  with_canvas f (with_canvas g s) = with_canvas (λ c, f (g c)) s.
Proof. destruct s as [[c|] ?]; reflexivity. Qed.

Lemma canvas_remove_restoring objs s :
  isRestoring s = true →
  canvas_remove objs s =
  match objs with [] => s | _ => with_canvas (set_objects []) s end.
Proof.
  revert s. induction objs as [|o rest IH]; intros s Hr; [done|].
  cbn [canvas_remove]. rewrite saveHistory_restoring by done.
  rewrite IH by done. destruct rest; [done|].
  by rewrite with_canvas_compose.
Qed.

Lemma canvas_add_restoring objs s :
  isRestoring s = true →
  canvas_add objs s = with_canvas (λ c, set_objects (getObjects c ++ objs) c) s.
Proof.
  revert s. induction objs as [|o rest IH]; intros s Hr.
  - destruct s as [[[]|] ?]; unfold with_canvas; cbn; by rewrite ?app_nil_r.
  - cbn [canvas_add]. rewrite saveHistory_restoring by done.
    rewrite IH by done. rewrite with_canvas_compose.
    destruct s as [[[]|] ?]; unfold with_canvas, push; cbn;
      by rewrite <- ?app_assoc.
Qed.

Lemma iter_saveHistory_restoring n s :
  isRestoring s = true → Nat.iter n saveHistory s = s.
Proof.
  intros Hr. induction n as [|n IH]; [done|].
  rewrite Nat.iter_succ, IH. by apply saveHistory_restoring.
Qed.

Lemma canvas_add_all_restoring objs s :
  isRestoring s = true →
  canvas_add_all objs s = with_canvas (λ c, set_objects (getObjects c ++ objs) c) s.
Proof. intros Hr. unfold canvas_add_all. by rewrite iter_saveHistory_restoring. Qed.

Lemma loadFromJSON_restoring json s c :
  isRestoring s = true → canvasRef s = Some c →
  loadFromJSON json s =
  set_canvasRef (Some (set_backgroundImage None (set_objects json c))) s.
Proof.
  intros Hr Hc. unfold loadFromJSON, canvas_clear. rewrite Hc.
  rewrite canvas_add_all_restoring, canvas_remove_restoring; try done.
  - destruct s as [cr ?]; cbn in Hc; subst cr.
    destruct c as [objs ? ? ?]; destruct objs; reflexivity.
  - rewrite canvas_remove_restoring by done.
    by destruct (getObjects c).
Qed.

(** [loadSnapshot] in closed form. *)
Lemma loadSnapshot_spec snapshot s c :
  canvasRef s = Some c →
  loadSnapshot fromURL snapshot s =
  {| canvasRef := Some (loaded_canvas fromURL snapshot c);
     imgOriginal := imgOriginal s;
     backgroundRef := truthy (background snapshot);
     undoStack := undoStack s;
     redoStack := redoStack s;
     isRestoring := true;
     hasBackground := bool_decide (is_Some (truthy (background snapshot)));
     canUndo := canUndo s;
     canRedo := canRedo s;
     localStorage := localStorage s |}.
Proof.
  intros Hc. unfold loadSnapshot, loaded_canvas.
  rewrite (loadFromJSON_restoring _ _ c) by done.
  destruct (truthy (background snapshot)) as [bg|]; reflexivity.
Qed.

(** **** Arrays *)




Lemma capped_room a x :
  length a < MAX_HISTORY → capped (push a x) = a ++ [x].
Proof.
  intros Hlen. unfold capped, push. rewrite length_app. cbn [length].
  destruct (Nat.ltb_spec MAX_HISTORY (length a + 1)); [lia|done].
Qed.

Lemma last_capped a x : last (capped (push a x)) = Some x.
Proof.
  unfold capped, push, shift.
  destruct (Nat.ltb_spec MAX_HISTORY (length (a ++ [x]))) as [Hlt|_];
    [|apply last_snoc].
  destruct a as [|y a]; [cbn in Hlt; unfold MAX_HISTORY in Hlt; lia|].
  cbn. apply last_snoc.
Qed.

(** **** The handlers in closed form *)

(** The state of [saveHistory] after its two guards. *)
Lemma saveHistory_spec s canvas :
  isRestoring s = false → canvasRef s = Some canvas →
  saveHistory s =
  updateStackStates
    (setItem "canvasDesign" (snapshot_of canvas s)
       (set_undoStack (capped (push (undoStack s) (Some (snapshot_of canvas s)))) s)).
Proof.
  intros Hr Hc. unfold saveHistory, capped. rewrite Hr, Hc.
  cbn -[Nat.ltb]. by destruct (_ <? _).
Qed.

Lemma undo_spec s canvas :
  canvasRef s = Some canvas →
  undo fromURL s =
  match JSON_parse (or_undefined (last (removelast (undoStack s)))) with
  | None => Throw (undo_popped s)
  | Some prev =>
    Return (updateStackStates (loadSnapshot fromURL prev (undo_popped s)))
  end.
Proof.
  intros Hc. unfold undo, undo_popped, capped, pop, at_last. rewrite Hc.
  cbn -[Nat.ltb]. by destruct (_ <? _).
Qed.

Lemma redo_spec s canvas :
  canvasRef s = Some canvas → redoStack s ≠ [] →
  redo fromURL s =
  match JSON_parse (or_undefined (last (redoStack s))) with
  | None => Throw (redo_popped s)
  | Some next =>
    Return (updateStackStates (loadSnapshot fromURL next (redo_popped s)))
  end.
Proof.
  intros Hc Hne. unfold redo, redo_popped, capped, pop. rewrite Hc.
  destruct (redoStack s) as [|x r] eqn:Hr; [done|]. cbn [length Nat.eqb].
  cbn -[Nat.ltb]. by destruct (_ <? _).
Qed.

Lemma redo_empty s : redoStack s = [] → redo fromURL s = Return s.
Proof. intros Hr. unfold redo. rewrite Hr. by destruct (canvasRef s). Qed.

Lemma undo_no_canvas s : canvasRef s = None → undo fromURL s = Return s.
Proof. intros Hc. unfold undo. by rewrite Hc. Qed.

Lemma redo_no_canvas s : canvasRef s = None → redo fromURL s = Return s.
Proof. intros Hc. unfold redo. by rewrite Hc. Qed.

(** The stacks after [undo], whether it returns or throws. *)
Lemma undo_stacks s canvas :
  canvasRef s = Some canvas →
  undoStack (state_of (undo fromURL s)) = removelast (undoStack s) ∧
  redoStack (state_of (undo fromURL s)) =
    capped (push (redoStack s) (or_undefined (last (undoStack s)))).
Proof.
  intros Hc. rewrite (undo_spec _ canvas) by done.
  destruct (JSON_parse _); [|done].
  by rewrite (loadSnapshot_spec _ _ canvas).
Qed.


(** **** The capacity bound *)







(** **** Two-stack semantics *)

Lemma capped_push a x :
  capped (push a x) =
  (if length a <? MAX_HISTORY then a else shift a) ++ [x].
Proof.
  destruct (Nat.ltb_spec (length a) MAX_HISTORY) as [Hlt|Hge].
  - by apply capped_room.
  - unfold capped, push, shift. rewrite length_app. cbn [length].
    destruct (Nat.ltb_spec MAX_HISTORY (length a + 1)) as [_|Hle]; [|lia].
    destruct a; [cbn in Hge; unfold MAX_HISTORY in Hge; lia|reflexivity].
Qed.

Lemma truthy_ok (bg : option string) : background_ok bg → truthy bg = bg.
Proof. unfold background_ok. destruct bg as [[|? ?]|]; done. Qed.

Lemma truthy_background_ok (bg : option string) : background_ok (truthy bg).
Proof. unfold background_ok. destruct bg as [[|? ?]|]; done. Qed.

(** What the canvas shows once a snapshot is loaded. *)
Lemma displayed_loadSnapshot snapshot s canvas :
  canvasRef s = Some canvas →
  displayed (updateStackStates (loadSnapshot fromURL snapshot s)) =
  Some {| objects := objects snapshot;
          background := truthy (background snapshot) |}.
Proof.
  intros Hc. rewrite (loadSnapshot_spec _ _ canvas) by done.
  unfold displayed, loaded_canvas. cbn.
  by destruct (truthy (background snapshot)).
Qed.

Lemma displayed_loadSnapshot_ok v s canvas :
  canvasRef s = Some canvas → background_ok (background (parse v)) →
  displayed (updateStackStates (loadSnapshot fromURL (parse v) s)) =
  Some (parse v).
Proof.
  intros Hc Hok. rewrite (displayed_loadSnapshot _ _ canvas) by done.
  rewrite truthy_ok by done. by destruct (parse v).
Qed.

Lemma undo_two s canvas u p t :
  canvasRef s = Some canvas →
  undoStack s = u ++ [Some p; Some t] →
  undo fromURL s =
  Return (updateStackStates (loadSnapshot fromURL (parse p) (undo_popped s))) ∧
  undoStack (undo_popped s) = u ++ [Some p] ∧
  redoStack (undo_popped s) = capped (push (redoStack s) (Some t)).
Proof.
  intros Hc Hu. rewrite (undo_spec _ canvas) by done.
  unfold undo_popped. cbn. rewrite Hu.
  replace (u ++ [Some p; Some t]) with ((u ++ [Some p]) ++ [Some t])
    by (by rewrite <- app_assoc).
  rewrite removelast_last, !last_snoc. cbn. by destruct p.
Qed.

Lemma redo_one s canvas r t :
  canvasRef s = Some canvas →
  redoStack s = r ++ [Some t] →
  redo fromURL s =
  Return (updateStackStates (loadSnapshot fromURL (parse t) (redo_popped s))) ∧
  redoStack (redo_popped s) = r ∧
  undoStack (redo_popped s) = capped (push (undoStack s) (Some t)).
Proof.
  intros Hc Hr. rewrite (redo_spec _ canvas); [|done|].
  2: { rewrite Hr. by destruct r. }
  unfold redo_popped. cbn. rewrite Hr, removelast_last, last_snoc. cbn.
  by destruct t.
Qed.

(** Two-stack semantics in terms of what [undo] and [redo] read from an
    entry.  With the canvas initialised: when the two top entries of the undo
    stack are texts [p] (below) and [t] (top), [undo] returns, leaves [p] on
    top of the undo stack, has pushed [t] onto the redo stack (dropping the
    oldest redo entry if that stack was full) and the canvas shows what [p]
    reads as; when the top of the redo stack is a text [t], [redo] returns,
    has popped [t], pushed it onto the undo stack (same capacity rule) and
    the canvas shows what [t] reads as.  For a snapshot written by
    [saveHistory] that is the recorded canvas; for the text pushed by the
    mount effect it is an empty canvas without background. *)
Lemma two_stack_semantics s canvas :
  canvasRef s = Some canvas →
  (∀ u p t,
     undoStack s = u ++ [Some p; Some t] →
     background_ok (background (parse p)) →
     ∃ s', undo fromURL s = Return s' ∧
           undoStack s' = u ++ [Some p] ∧
           redoStack s' =
             (if length (redoStack s) <? MAX_HISTORY
              then redoStack s else shift (redoStack s)) ++ [Some t] ∧
           displayed s' = Some (parse p)) ∧
  (∀ r t,
     redoStack s = r ++ [Some t] →
     background_ok (background (parse t)) →
     ∃ s', redo fromURL s = Return s' ∧
           redoStack s' = r ∧
           undoStack s' =
             (if length (undoStack s) <? MAX_HISTORY
              then undoStack s else shift (undoStack s)) ++ [Some t] ∧
           displayed s' = Some (parse t)).
Proof.
  intros Hc. split.
  - intros u p t Hu Hok.
    destruct (undo_two s canvas u p t Hc Hu) as (-> & Hu' & Hr').
    eexists. split; [reflexivity|].
    rewrite (loadSnapshot_spec _ _ canvas) by done.
    rewrite <- capped_push, <- Hu', <- Hr'. repeat split.
    rewrite <- (displayed_loadSnapshot_ok p (undo_popped s) canvas) by done.
    by rewrite (loadSnapshot_spec _ _ canvas).
  - intros r t Hr Hok.
    destruct (redo_one s canvas r t Hc Hr) as (-> & Hr' & Hu').
    eexists. split; [reflexivity|].
    rewrite (loadSnapshot_spec _ _ canvas) by done.
    rewrite <- capped_push, <- Hu'. cbn [redoStack undoStack updateStackStates
      setCanRedo setCanUndo]. rewrite Hr'. repeat split.
    rewrite <- (displayed_loadSnapshot_ok t (redo_popped s) canvas) by done.
    by rewrite (loadSnapshot_spec _ _ canvas).
Qed.

(** **** Consistency of the log with the canvas *)

Lemma Forall_capped (P : slot → Prop) a : Forall P a → Forall P (capped a).
Proof.
  intros Ha. unfold capped, shift. destruct (_ <? _); [|done].
  destruct a; [done|]. by apply Forall_cons in Ha as [_ ?].
Qed.

(** A stack of more than one well-formed entry ends in two snapshots. *)
Lemma two_snapshots a :
  Forall entry_ok a → length a > 1 →
  ∃ u p t, a = u ++ [Some p; Some t] ∧
           background_ok (background (parse p)) ∧
           background_ok (background (parse t)).
Proof.
  intros Ha Hlen.
  destruct a as [|x0 a0 _] using rev_ind; [cbn in Hlen; lia|].
  destruct a0 as [|x1 a1 _] using rev_ind; [cbn in Hlen; lia|].
  apply Forall_app in Ha as [Ha Hx0].
  apply Forall_app in Ha as [_ Hx1].
  apply Forall_singleton in Hx0 as (t & -> & Ht).
  apply Forall_singleton in Hx1 as (p & -> & Hp).
  exists a1, p, t. by rewrite <- app_assoc.
Qed.

Lemma saveHistory_consistent s : consistent s → consistent (saveHistory s).
Proof.
  intros (Hu & Hr & Hbg & Hsync).
  destruct (isRestoring s) eqn:Hres; [by rewrite saveHistory_restoring|].
  destruct (canvasRef s) as [canvas|] eqn:Hc.
  2: { unfold saveHistory. by rewrite Hres, Hc. }
  rewrite (saveHistory_spec _ canvas) by done. unfold consistent, displayed.
  cbn [canvasRef undoStack redoStack backgroundRef localStorage
       updateStackStates setCanUndo setCanRedo setItem set_localStorage
       set_undoStack].
  split; [|split; [done|split; [done|]]].
  - apply Forall_capped, Forall_app. split; [done|].
    apply Forall_singleton. by eexists.
  - intros t. rewrite last_capped. intros [= <-]. by rewrite Hc.
Qed.

Lemma undo_consistent s :
  consistent s → length (undoStack s) > 1 → consistent (state_of (undo fromURL s)).
Proof.
  intros (Hu & Hr & Hbg & Hsync) Hlen.
  destruct (canvasRef s) as [canvas|] eqn:Hc; [|by rewrite undo_no_canvas].
  destruct (two_snapshots _ Hu Hlen) as (u & p & t & Hstack & Hp & Ht).
  destruct (undo_two s canvas u p t Hc Hstack) as (-> & Hu' & Hr').
  assert (Hshown := displayed_loadSnapshot_ok p (undo_popped s) canvas Hc Hp).
  revert Hshown. rewrite (loadSnapshot_spec _ _ canvas) by done.
  unfold consistent.
  cbn [state_of undoStack redoStack backgroundRef updateStackStates
       setCanUndo setCanRedo].
  rewrite Hu', Hr'. intros Hshown. split; [|split; [|split]].
  - rewrite Hstack in Hu. apply Forall_app in Hu as [Hu0 Hpt].
    apply Forall_app. split; [done|].
    apply Forall_cons in Hpt as [? _]. by apply Forall_singleton.
  - apply Forall_capped, Forall_app. split; [done|].
    apply Forall_singleton. by eexists.
  - apply truthy_background_ok.
  - intros t'. rewrite last_snoc. by intros [= <-].
Qed.

Lemma redo_consistent s : consistent s → consistent (state_of (redo fromURL s)).
Proof.
  intros (Hu & Hr & Hbg & Hsync).
  destruct (canvasRef s) as [canvas|] eqn:Hc; [|by rewrite redo_no_canvas].
  destruct (decide (redoStack s = [])) as [Hnil|Hne].
  { rewrite redo_empty by done. by repeat split. }
  assert (Hsnoc : ∃ r x0, redoStack s = r ++ [x0]).
  { destruct (redoStack s) as [|x0 r _] using rev_ind; [done|eauto]. }
  destruct Hsnoc as (r & x0 & Hstack). rewrite Hstack in Hr.
  apply Forall_app in Hr as [Hr0 Hx0].
  apply Forall_singleton in Hx0 as (t & -> & Ht).
  destruct (redo_one s canvas r t Hc Hstack) as (-> & Hr' & Hu').
  assert (Hshown := displayed_loadSnapshot_ok t (redo_popped s) canvas Hc Ht).
  revert Hshown. rewrite (loadSnapshot_spec _ _ canvas) by done.
  unfold consistent.
  cbn [state_of undoStack redoStack backgroundRef updateStackStates
       setCanUndo setCanRedo].
  rewrite Hu', Hr'. intros Hshown. split; [|split; [|split]].
  - apply Forall_capped, Forall_app. split; [done|].
    apply Forall_singleton. by eexists.
  - done.
  - apply truthy_background_ok.
  - intros t'. rewrite last_capped. by intros [= <-].
Qed.

(** The history handlers, with Undo used only while it is enabled, keep the
    log consistent with the canvas. *)
Lemma history_run_consistent s s' :
  history_run fromURL s s' → consistent s → consistent s'.
Proof.
  induction 1 as [|s' _ IH|s' _ IH Hlen|s' _ IH|s' _ IH]; intros Hs.
  - done.
  - by apply saveHistory_consistent, IH.
  - by apply undo_consistent; [apply IH|].
  - by apply redo_consistent, IH.
  - by apply IH.
Qed.


(** **** The enabling guard of [undo] *)

(** C8.  With the canvas initialised, [undo] pops the undo stack whatever its
    length.  On a stack of at most one entry the stack is then empty, the
    element read at its top is missing and [JSON.parse] throws; on a stack of
    more than one snapshot, which is when [updateStackStates] enables the
    Undo control, the element read is a present snapshot and [undo]
    returns. *)
Theorem undo_guard s canvas :
  canvasRef s = Some canvas →
  undoStack (state_of (undo fromURL s)) = removelast (undoStack s) ∧
  (canUndo (updateStackStates s) = true ↔ length (undoStack s) > 1) ∧
  (length (undoStack s) ≤ 1 →
     at_last (removelast (undoStack s)) = None ∧
     JSON_parse (or_undefined (at_last (removelast (undoStack s)))) = None ∧
     undo fromURL s = Throw (undo_popped s)) ∧
  (length (undoStack s) > 1 → Forall is_Some (undoStack s) →
     ∃ prev,
       at_last (removelast (undoStack s)) = Some (Some prev) ∧
       undo fromURL s =
         Return (updateStackStates
                   (loadSnapshot fromURL (parse prev) (undo_popped s)))).
Proof.
  intros Hc. split; [apply (undo_stacks s canvas Hc)|]. split.
  { cbn -[Nat.ltb]. rewrite Nat.ltb_lt. lia. }
  split.
  - intros Hlen. rewrite (undo_spec _ canvas) by done.
    assert (Hnil : removelast (undoStack s) = []).
    { destruct (undoStack s) as [|? [|? ?]]; cbn in *; [done|done|lia]. }
    by rewrite Hnil.
  - intros Hlen Hall.
    destruct (undoStack s) as [|x0 a0] eqn:Hu using rev_ind; [cbn in Hlen; lia|].
    clear IHa0.
    destruct a0 as [|x1 a1 _] using rev_ind.
    { cbn in Hlen. lia. }
    apply Forall_app in Hall as [Hall _].
    apply Forall_app in Hall as [_ Hx1].
    apply Forall_singleton in Hx1 as [prev ->].
    exists prev. rewrite removelast_last. unfold at_last.
    rewrite last_snoc. split; [done|].
    rewrite (undo_spec _ canvas) by done.
    rewrite Hu, removelast_last, last_snoc. cbn. by destruct prev.
Qed.

(** **** What [saveHistory] leaves alone *)

Lemma saveHistory_frame s :
  redoStack (saveHistory s) = redoStack s ∧
  canvasRef (saveHistory s) = canvasRef s ∧
  imgOriginal (saveHistory s) = imgOriginal s ∧
  backgroundRef (saveHistory s) = backgroundRef s ∧
  isRestoring (saveHistory s) = isRestoring s ∧
  hasBackground (saveHistory s) = hasBackground s ∧
  (∀ k, k ≠ "canvasDesign" →
        localStorage (saveHistory s) !! k = localStorage s !! k).
Proof.
  destruct (isRestoring s) eqn:Hres; [by rewrite saveHistory_restoring|].
  destruct (canvasRef s) as [canvas|] eqn:Hc.
  2: { unfold saveHistory. by rewrite Hres, Hc. }
  rewrite (saveHistory_spec _ canvas) by done. cbn.
  repeat split; try done.
  intros k Hk. by rewrite lookup_insert_ne.
Qed.

(** C9.  [saveHistory] leaves the redo stack exactly as it was, in every
    state; besides the undo stack and the [canvasDesign] entry of
    localStorage it touches only the two button flags, which it recomputes.
    So the entries on the redo stack stay there, and after a recorded edit
    Redo is enabled whenever the redo stack is non-empty. *)
Theorem saveHistory_keeps_redo s :
  redoStack (saveHistory s) = redoStack s ∧
  (canvasRef (saveHistory s) = canvasRef s ∧
   imgOriginal (saveHistory s) = imgOriginal s ∧
   backgroundRef (saveHistory s) = backgroundRef s ∧
   isRestoring (saveHistory s) = isRestoring s ∧
   hasBackground (saveHistory s) = hasBackground s ∧
   (∀ k, k ≠ "canvasDesign" →
         localStorage (saveHistory s) !! k = localStorage s !! k)) ∧
  (redoStack s ≠ [] → canRedo s = true → canRedo (saveHistory s) = true) ∧
  (∀ canvas, canvasRef s = Some canvas → isRestoring s = false →
     redoStack s ≠ [] → canRedo (saveHistory s) = true).
Proof.
  split; [apply saveHistory_frame|]. split; [apply saveHistory_frame|]. split.
  - intros Hne Hcan.
    destruct (isRestoring s) eqn:Hres; [by rewrite saveHistory_restoring|].
    destruct (canvasRef s) as [canvas|] eqn:Hc.
    2: { unfold saveHistory. by rewrite Hres, Hc. }
    rewrite (saveHistory_spec _ canvas) by done. cbn.
    by destruct (redoStack s).
  - intros canvas Hc Hres Hne.
    rewrite (saveHistory_spec _ canvas) by done. cbn.
    by destruct (redoStack s).
Qed.

(** **** Reset *)

Lemma canvasRef_saveHistory s : canvasRef (saveHistory s) = canvasRef s.
Proof. apply saveHistory_frame. Qed.

Lemma canvas_remove_canvas objs s :
  canvasRef (canvas_remove objs s) =
  match objs with [] => canvasRef s | _ => set_objects [] <$> canvasRef s end.
Proof.
  revert s. induction objs as [|o rest IH]; intros s; [done|].
  cbn [canvas_remove]. rewrite IH, canvasRef_saveHistory.
  destruct rest; [done|]. unfold with_canvas. cbn.
  by destruct (canvasRef s).
Qed.

(** C10.  After [reset] on a state with an initialised canvas the undo stack
    and the redo stack are empty, the background reference is null,
    localStorage has no [canvasDesign] entry and both button flags are
    false; the canvas itself holds no object and no background image. *)
Theorem reset_clears s canvas :
  canvasRef s = Some canvas →
  let s' := reset s in
  undoStack s' = [] ∧ redoStack s' = [] ∧
  backgroundRef s' = None ∧
  localStorage s' !! "canvasDesign" = None ∧
  canUndo s' = false ∧ canRedo s' = false ∧
  hasBackground s' = false ∧
  ∃ canvas', canvasRef s' = Some canvas' ∧
             getObjects canvas' = [] ∧ backgroundImage canvas' = None.
Proof.
  intros Hc. unfold reset. rewrite Hc. cbn.
  repeat split; try done.
  - apply lookup_delete_eq.
  - unfold canvas_clear. rewrite Hc. unfold with_canvas. cbn.
    rewrite canvas_remove_canvas, Hc.
    destruct canvas as [objs ? ? ?]. destruct objs; cbn; eauto.
Qed.

(** **** Persistence *)

(** C4, amended.  After a recorded edit ([saveHistory] with the canvas
    initialised and no restore in progress) the text stored under
    [canvasDesign] is the snapshot of what the canvas shows, and that
    snapshot is the top of the undo stack.  [undo] and [redo] do not write
    to localStorage: after them, in every state and whether they return or
    throw, it holds what it held before. *)
Theorem persisted_after_recorded_edit s :
  (∀ canvas, canvasRef s = Some canvas → isRestoring s = false →
     persisted_is_displayed (saveHistory s)) ∧
  localStorage (state_of (undo fromURL s)) = localStorage s ∧
  localStorage (state_of (redo fromURL s)) = localStorage s.
Proof.
  split; [|split].
  - intros canvas Hc Hres.
    exists {| objects := toJSON canvas; background := backgroundRef s |}.
    rewrite (saveHistory_spec _ canvas) by done. unfold displayed.
    cbn [canvasRef undoStack localStorage updateStackStates setCanUndo
         setCanRedo setItem set_localStorage set_undoStack].
    rewrite Hc. split; [done|]. split; [apply lookup_insert_eq|].
    apply last_capped.
  - destruct (canvasRef s) as [canvas|] eqn:Hc; [|by rewrite undo_no_canvas].
    rewrite (undo_spec _ canvas) by done.
    destruct (JSON_parse _); [|done].
    by rewrite (loadSnapshot_spec _ _ canvas).
  - destruct (canvasRef s) as [canvas|] eqn:Hc; [|by rewrite redo_no_canvas].
    destruct (decide (redoStack s = [])) as [He|Hne].
    { by rewrite redo_empty. }
    rewrite (redo_spec _ canvas) by done.
    destruct (JSON_parse _); [|done].
    by rewrite (loadSnapshot_spec _ _ canvas).
Qed.

(** **** Upload and export *)

Lemma canvas_remove_frame objs s :
  imgOriginal (canvas_remove objs s) = imgOriginal s ∧
  backgroundRef (canvas_remove objs s) = backgroundRef s.
Proof.
  revert s. induction objs as [|o rest IH]; intros s; [done|].
  cbn [canvas_remove]. destruct (IH (saveHistory (with_canvas (set_objects rest) s)))
    as [-> ->].
  destruct (saveHistory_frame (with_canvas (set_objects rest) s))
    as (_ & _ & -> & -> & _). done.
Qed.

Lemma fold_export kx ky objs (ex : Canvas) :
  fold_left
    (λ ex obj, set_objects (push (getObjects ex) (export_object kx ky obj)) ex)
    objs ex =
  set_objects (getObjects ex ++ map (export_object kx ky) objs) ex.
Proof.
  revert ex. induction objs as [|o objs IH]; intros ex.
  - cbn. rewrite app_nil_r. by destruct ex.
  - cbn [fold_left map]. rewrite IH. unfold push. cbn.
    by rewrite <- app_assoc.
Qed.

(** The state in which the upload callback leaves the canvas. *)
Lemma onload_spec s canvas src :
  canvasRef s = Some canvas → src ≠ "" →
  let img := fromURL src in
  let scale := fit_scale (img_width img) in
  canvasRef (onload fromURL (Some src) s) =
    Some {| getObjects := [];
            backgroundImage := Some (place_background scale img);
            getWidth := mul (img_width img) scale;
            getHeight := mul (img_height img) scale |} ∧
  imgOriginal (onload fromURL (Some src) s) =
    Some {| width := img_width img; height := img_height img |} ∧
  backgroundRef (onload fromURL (Some src) s) = Some src.
Proof.
  intros Hc Hsrc img scale. unfold onload.
  rewrite truthy_ok by (unfold background_ok; congruence).
  rewrite Hc. fold img. fold scale.
  set (s1 := setHasBackground true _).
  assert (Hc1 : canvasRef s1 = Some canvas) by done.
  assert (Hclear : canvasRef (canvas_clear s1) =
                   Some (set_backgroundImage None (set_objects [] canvas))).
  { unfold canvas_clear. rewrite Hc1. unfold with_canvas. cbn.
    rewrite canvas_remove_canvas, Hc1.
    destruct canvas as [objs ? ? ?]. by destruct objs. }
  assert (Hframe : imgOriginal (canvas_clear s1) = imgOriginal s1 ∧
                   backgroundRef (canvas_clear s1) = backgroundRef s1).
  { unfold canvas_clear. rewrite Hc1. unfold with_canvas. cbn.
    apply canvas_remove_frame. }
  destruct Hframe as [Hio Hbg].
  unfold with_canvas. cbn. rewrite Hclear. cbn.
  by rewrite Hio, Hbg.
Qed.

(** [handleExport] in a state where an original size is recorded. *)
Lemma handleExport_spec s shown original :
  canvasRef s = Some shown →
  imgOriginal s = Some original →
  handleExport fromURL s =
  Some {| getObjects :=
            map (export_object (div (width original) (getWidth shown))
                               (div (height original) (getHeight shown)))
                (getObjects shown);
          backgroundImage := (λ bg, fromURL (getSrc bg)) <$> backgroundImage shown;
          getWidth := width original;
          getHeight := height original |}.
Proof.
  intros Hc Hio. unfold handleExport. rewrite Hc, Hio. cbn.
  rewrite fold_export. cbn. by destruct (backgroundImage shown).
Qed.

(** Export after an upload made on this page.  An upload whose image has
    original size [W] by [Hh] records that
    size and leaves the canvas [W * scale] by [Hh * scale] for the scale
    [fit_scale W] (1, or 600 / W when W > 600).  In every state where that
    size is recorded, whatever the canvas then holds, [handleExport] produces
    a canvas of exactly [W] by [Hh] with, in the same order, one object per
    overlay object, whose [scaleX] and [left] are the object's (1 and 0 when
    missing) times [W] divided by the displayed width, and whose [scaleY] and
    [top] are the object's times [Hh] divided by the displayed height. *)
Lemma export_original_resolution s0 canvas src :
  canvasRef s0 = Some canvas →
  src ≠ "" →
  let W := img_width (fromURL src) in
  let Hh := img_height (fromURL src) in
  let s1 := handleUpload fromURL [Some src] s0 in
  (imgOriginal s1 = Some {| width := W; height := Hh |} ∧
   ∃ shown, canvasRef s1 = Some shown ∧
            getWidth shown = mul W (fit_scale W) ∧
            getHeight shown = mul Hh (fit_scale W)) ∧
  ∀ s shown,
    imgOriginal s = Some {| width := W; height := Hh |} →
    canvasRef s = Some shown →
    ∃ ex,
      handleExport fromURL s = Some ex ∧
      getWidth ex = W ∧ getHeight ex = Hh ∧
      length (getObjects ex) = length (getObjects shown) ∧
      ∀ i obj, getObjects shown !! i = Some obj →
        ∃ obj', getObjects ex !! i = Some obj' ∧
          text obj' = text obj ∧
          scaleX obj' =
            Some (mul (default (lit 1) (scaleX obj)) (div W (getWidth shown))) ∧
          left obj' =
            Some (mul (default (lit 0) (left obj)) (div W (getWidth shown))) ∧
          scaleY obj' =
            Some (mul (default (lit 1) (scaleY obj)) (div Hh (getHeight shown))) ∧
          top obj' =
            Some (mul (default (lit 0) (top obj)) (div Hh (getHeight shown))).
Proof.
  intros Hc Hsrc W Hh s1.
  destruct (onload_spec s0 canvas src Hc Hsrc) as (Hc1 & Hio & _).
  split.
  - split; [exact Hio|]. eexists. split; [exact Hc1|]. by split.
  - intros s shown Hs Hshown. eexists. split.
    { by apply handleExport_spec. }
    cbn. split; [done|]. split; [done|]. split; [by rewrite length_map|].
    intros i obj Hi. eexists. split.
    { by rewrite list_lookup_fmap, Hi. }
    done.
Qed.

(** **** The mount effect *)

Lemma iter_saveHistory_imgOriginal n s :
  imgOriginal (Nat.iter n saveHistory s) = imgOriginal s.
Proof.
  induction n as [|n IH]; [done|]. rewrite Nat.iter_succ.
  by destruct (saveHistory_frame (Nat.iter n saveHistory s)) as (_ & _ & -> & _).
Qed.

Lemma loadFromJSON_imgOriginal json s :
  imgOriginal (loadFromJSON json s) = imgOriginal s.
Proof.
  unfold loadFromJSON, canvas_add_all. rewrite iter_saveHistory_imgOriginal.
  unfold canvas_clear. destruct (canvasRef s) as [canvas|]; [|done].
  unfold with_canvas. cbn. apply canvas_remove_frame.
Qed.

(** The mount effect never records an original size: the restore path puts
    the background back without assigning [imgOriginal]. *)
Lemma mount_imgOriginal s : imgOriginal (mount fromURL s) = imgOriginal s.
Proof.
  unfold mount. destruct (canvasRef s); [done|].
  cbn [localStorage set_canvasRef].
  destruct (_ !! _) as [text|]; [|done].
  cbn zeta. set (saved := parse text). set (s1 := updateStackStates _).
  assert (H1 : imgOriginal
                 (if truthy_json (objects saved)
                  then loadFromJSON (objects saved) s1 else s1) = imgOriginal s).
  { destruct (truthy_json _); [|done]. by rewrite loadFromJSON_imgOriginal. }
  revert H1. generalize (if truthy_json (objects saved)
                         then loadFromJSON (objects saved) s1 else s1).
  intros s2 H2.
  destruct (truthy (background saved)) as [bg|].
  - unfold with_canvas. cbn. by destruct (canvasRef s2).
  - by destruct (canvasRef s2).
Qed.

Lemma handleExport_unmounted store :
  handleExport fromURL (mount fromURL (unmounted store)) = None.
Proof.
  unfold handleExport. rewrite mount_imgOriginal. cbn.
  by destruct (canvasRef _).
Qed.

End Facts.

(** *** The statements at sample inputs *)

Import Samples.

(** Evaluates both sides of a closed equation. *)
Ltac by_evaluation := vm_compute; first [reflexivity | lia | done].


Lemma two_stack_semantics_witness :
  canvasRef two_edits = Some (loaded_canvas fromURL (parse second_snapshot) new_Canvas) ∧
  undoStack two_edits = [] ++ [Some first_snapshot; Some second_snapshot] ∧
  background_ok (background (parse first_snapshot)) ∧
  canvasRef undone = Some (loaded_canvas fromURL (parse first_snapshot) new_Canvas) ∧
  redoStack undone = [] ++ [Some second_snapshot] ∧
  background_ok (background (parse second_snapshot)) ∧
  (∃ s', undo fromURL two_edits = Return s' ∧
         undoStack s' = [] ++ [Some first_snapshot] ∧
         redoStack s' =
           (if length (redoStack two_edits) <? MAX_HISTORY
            then redoStack two_edits else shift (redoStack two_edits))
           ++ [Some second_snapshot] ∧
         displayed s' = Some (parse first_snapshot)) ∧
  (∃ s', redo fromURL undone = Return s' ∧
         redoStack s' = [] ∧
         undoStack s' =
           (if length (undoStack undone) <? MAX_HISTORY
            then undoStack undone else shift (undoStack undone))
           ++ [Some second_snapshot] ∧
         displayed s' = Some (parse second_snapshot)).
Proof.
  assert (Hc : canvasRef two_edits =
               Some (loaded_canvas fromURL (parse second_snapshot) new_Canvas))
    by by_evaluation.
  assert (Hu : undoStack two_edits =
               [] ++ [Some first_snapshot; Some second_snapshot])
    by by_evaluation.
  assert (Hp : background_ok (background (parse first_snapshot))) by done.
  assert (Hc' : canvasRef undone =
                Some (loaded_canvas fromURL (parse first_snapshot) new_Canvas))
    by by_evaluation.
  assert (Hr : redoStack undone = [] ++ [Some second_snapshot])
    by by_evaluation.
  assert (Ht : background_ok (background (parse second_snapshot))) by done.
  repeat (split; [assumption|]). split.
  - exact (proj1 (two_stack_semantics fromURL two_edits _ Hc) _ _ _ Hu Hp).
  - exact (proj2 (two_stack_semantics fromURL undone _ Hc') _ _ Hr Ht).
Defined.


(** An undo on a stack of one entry throws; on the two recorded edits it
    returns. *)
Lemma undo_guard_witness :
  canvasRef one_edit = Some (loaded_canvas fromURL (parse first_snapshot) new_Canvas) ∧
  length (undoStack one_edit) ≤ 1 ∧
  undo fromURL one_edit = Throw (undo_popped one_edit) ∧
  canvasRef two_edits = Some (loaded_canvas fromURL (parse second_snapshot) new_Canvas) ∧
  length (undoStack two_edits) > 1 ∧
  Forall is_Some (undoStack two_edits) ∧
  ∃ prev,
    at_last (removelast (undoStack two_edits)) = Some (Some prev) ∧
    undo fromURL two_edits =
      Return (updateStackStates
                (loadSnapshot fromURL (parse prev) (undo_popped two_edits))).
Proof.
  assert (Hc1 : canvasRef one_edit =
                Some (loaded_canvas fromURL (parse first_snapshot) new_Canvas))
    by by_evaluation.
  assert (Hl1 : length (undoStack one_edit) ≤ 1) by by_evaluation.
  assert (Hc2 : canvasRef two_edits =
                Some (loaded_canvas fromURL (parse second_snapshot) new_Canvas))
    by by_evaluation.
  assert (Hl2 : length (undoStack two_edits) > 1) by by_evaluation.
  assert (Hu : undoStack two_edits = [Some first_snapshot; Some second_snapshot])
    by by_evaluation.
  assert (Hall : Forall is_Some (undoStack two_edits)).
  { rewrite Hu. repeat constructor; eexists; reflexivity. }
  destruct (undo_guard fromURL one_edit _ Hc1) as (_ & _ & Hthrow & _).
  destruct (undo_guard fromURL two_edits _ Hc2) as (_ & _ & _ & Hret).
  split; [exact Hc1|]. split; [exact Hl1|].
  split; [exact (proj2 (proj2 (Hthrow Hl1)))|].
  split; [exact Hc2|]. split; [exact Hl2|]. split; [exact Hall|].
  exact (Hret Hl2 Hall).
Defined.

Lemma saveHistory_keeps_redo_witness :
  canvasRef (restoreTimeout undone) =
    Some (loaded_canvas fromURL (parse first_snapshot) new_Canvas) ∧
  isRestoring (restoreTimeout undone) = false ∧
  redoStack (restoreTimeout undone) ≠ [] ∧
  redoStack (saveHistory (restoreTimeout undone)) = redoStack (restoreTimeout undone) ∧
  canRedo (saveHistory (restoreTimeout undone)) = true.
Proof.
  assert (Hc : canvasRef (restoreTimeout undone) =
               Some (loaded_canvas fromURL (parse first_snapshot) new_Canvas))
    by by_evaluation.
  assert (Hres : isRestoring (restoreTimeout undone) = false) by by_evaluation.
  assert (Hne : redoStack (restoreTimeout undone) ≠ []) by by_evaluation.
  destruct (saveHistory_keeps_redo (restoreTimeout undone)) as (Hredo & _ & _ & Hcan).
  repeat (split; [assumption|]). exact (Hcan _ Hc Hres Hne).
Defined.

Lemma reset_clears_witness :
  canvasRef two_edits = Some (loaded_canvas fromURL (parse second_snapshot) new_Canvas) ∧
  undoStack (reset two_edits) = [] ∧ redoStack (reset two_edits) = [] ∧
  backgroundRef (reset two_edits) = None ∧
  localStorage (reset two_edits) !! "canvasDesign" = None ∧
  canUndo (reset two_edits) = false ∧ canRedo (reset two_edits) = false.
Proof.
  assert (Hc : canvasRef two_edits =
               Some (loaded_canvas fromURL (parse second_snapshot) new_Canvas))
    by by_evaluation.
  destruct (reset_clears two_edits _ Hc) as (? & ? & ? & ? & ? & ? & _).
  by repeat split.
Defined.

(** A recorded edit that changes what is stored (the nudged text box is
    recorded), an undo that returns and changes the display, and the redo
    that follows it. *)
Lemma persisted_after_recorded_edit_witness :
  (isRestoring nudged = false ∧
   localStorage nudged !! "canvasDesign" = Some second_snapshot ∧
   localStorage (saveHistory nudged) !! "canvasDesign" =
     Some (JSON_stringify {| objects := [textbox; nudged_caption];
                             background := Some png |}) ∧
   persisted_is_displayed (saveHistory nudged)) ∧
  (returns (undo fromURL two_edits) = true ∧
   displayed two_edits = Some (parse second_snapshot) ∧
   displayed undone = Some (parse first_snapshot) ∧
   localStorage undone = localStorage two_edits) ∧
  (returns (redo fromURL undone) = true ∧
   displayed (state_of (redo fromURL undone)) = Some (parse second_snapshot) ∧
   localStorage (state_of (redo fromURL undone)) = localStorage undone).
Proof.
  assert (Hc : canvasRef nudged =
               Some (loaded_canvas fromURL
                       {| objects := [textbox; nudged_caption];
                          background := Some png |} new_Canvas))
    by by_evaluation.
  assert (Hres : isRestoring nudged = false) by by_evaluation.
  split; [|split].
  - split; [exact Hres|]. split; [by_evaluation|]. split; [by_evaluation|].
    exact (proj1 (persisted_after_recorded_edit fromURL nudged) _ Hc Hres).
  - split; [by_evaluation|]. split; [by_evaluation|]. split; [by_evaluation|].
    exact (proj1 (proj2 (persisted_after_recorded_edit fromURL two_edits))).
  - split; [by_evaluation|]. split; [by_evaluation|].
    exact (proj2 (proj2 (persisted_after_recorded_edit fromURL undone))).
Defined.

(** C4 as stated fails after an undo.  With two recorded edits, [undo]
    returns and the canvas shows the first snapshot, which is now the top of
    the undo stack, while [canvasDesign] still holds the second one. *)
Lemma undo_leaves_stale_persisted :
  returns (undo fromURL two_edits) = true ∧
  displayed two_edits = Some (parse second_snapshot) ∧
  displayed undone = Some (parse first_snapshot) ∧
  last (undoStack undone) = Some (Some first_snapshot) ∧
  localStorage undone !! "canvasDesign" = Some second_snapshot ∧
  ¬ persisted_is_displayed undone.
Proof.
  assert (Hd : displayed undone = Some (parse first_snapshot)) by by_evaluation.
  assert (Hl : localStorage undone !! "canvasDesign" = Some second_snapshot)
    by by_evaluation.
  split; [by_evaluation|]. split; [by_evaluation|]. split; [exact Hd|].
  split; [by_evaluation|]. split; [exact Hl|].
  intros (snapshot & Hshown & Hstored & _).
  rewrite Hd in Hshown. injection Hshown as <-.
  rewrite Hl in Hstored. discriminate.
Qed.


(** C2 at a page restored from storage.  The page is opened on the design
    that [one_edit] stored: the mount effect shows the text box on the
    background and pushes the text of [canvas.toJSON()] on the undo stack.
    After one more text box Undo is enabled; the click returns and leaves the
    mount entry on top of the undo stack, but the canvas does not show the
    state that entry was taken of: it shows no object and no background, and
    [hasBackground] is false. *)
Theorem undo_onto_mount_entry :
  displayed restored = Some {| objects := [textbox]; background := Some png |} ∧
  last (undoStack restored) = Some (Some (JSON_stringify_canvas [textbox])) ∧
  undoStack restored_edit =
    undoStack restored ++
    [Some (JSON_stringify {| objects := [textbox; caption];
                             background := Some png |})] ∧
  canUndo restored_edit = true ∧
  ∃ s', undo fromURL restored_edit = Return s' ∧
        undoStack s' = undoStack restored ∧
        displayed s' = Some {| objects := []; background := None |} ∧
        hasBackground s' = false ∧
        backgroundImage <$> canvasRef s' = Some None.
Proof.
  split; [by_evaluation|]. split; [by_evaluation|]. split; [by_evaluation|].
  split; [by_evaluation|].
  exists (state_of (undo fromURL restored_edit)).
  split; [by_evaluation|]. split; [by_evaluation|]. split; [by_evaluation|].
  split; by_evaluation.
Qed.

(** C5 at a page restored from storage.  The restored page shows the stored
    background at its fitted size with the text box on it and [hasBackground]
    is true, so Export is enabled; but no original size is recorded and
    [handleExport] returns at its guard without building a canvas.  This is
    so after every mount, whatever is stored. *)
Theorem export_after_restore :
  hasBackground restored = true ∧ backgroundRef restored = Some png ∧
  (∃ shown, canvasRef restored = Some shown ∧
            getObjects shown = [textbox] ∧
            backgroundImage shown =
              Some (place_background (fit_scale (img_width (fromURL png)))
                                     (fromURL png)) ∧
            (getWidth shown == lit 600)%Q ∧ (getHeight shown == lit 400)%Q) ∧
  imgOriginal restored = None ∧
  handleExport fromURL restored = None ∧
  ∀ store, handleExport fromURL (mount fromURL (unmounted store)) = None.
Proof.
  split; [by_evaluation|]. split; [by_evaluation|]. split.
  { eexists. split; [by_evaluation|]. split; [by_evaluation|].
    split; [by_evaluation|]. split; by_evaluation. }
  split; [by_evaluation|]. split; [by_evaluation|].
  apply handleExport_unmounted.
Qed.

(** An upload on the mounted component, two text boxes, a recorded edit, and
    the export. *)
Lemma export_original_resolution_witness :
  canvasRef mounted = Some new_Canvas ∧ png ≠ "" ∧
  imgOriginal two_edits = Some {| width := lit 1200; height := lit 800 |} ∧
  canvasRef two_edits =
    Some (loaded_canvas fromURL (parse second_snapshot) new_Canvas) ∧
  ∃ ex,
    handleExport fromURL two_edits = Some ex ∧
    getWidth ex = lit 1200 ∧ getHeight ex = lit 800 ∧
    length (getObjects ex) = 2.
Proof.
  assert (Hc : canvasRef mounted = Some new_Canvas) by reflexivity.
  assert (Hsrc : png ≠ "") by discriminate.
  assert (Hio : imgOriginal two_edits =
                Some {| width := img_width (fromURL png);
                        height := img_height (fromURL png) |})
    by by_evaluation.
  assert (Hshown : canvasRef two_edits =
                   Some (loaded_canvas fromURL (parse second_snapshot) new_Canvas))
    by by_evaluation.
  split; [exact Hc|]. split; [exact Hsrc|]. split; [exact Hio|].
  split; [exact Hshown|].
  destruct (proj2 (export_original_resolution fromURL mounted _ png Hc Hsrc)
              two_edits _ Hio Hshown)
    as (ex & Hex & Hew & Heh & Hlen & _).
  exists ex. by repeat split.
Defined.

(** Over exact rationals the export factor keeps every coordinate at the same
    fraction of the canvas: [x * (W / w) / W] is [x / w]. *)
Lemma export_keeps_relative_position (x W w : Q) :
  ¬ (W == 0)%Q → ¬ (w == 0)%Q →
  (div (mul x (div W w)) W == div x w)%Q.
Proof. intros HW Hw. cbn. field. by split. Qed.

(** Over exact rationals [fit_scale W] is [min 1 (600 / W)] for a positive
    width. *)
Lemma fit_scale_min (W : Q) :
  (0 < W)%Q → (fit_scale W == Qmin 1 (600 / W))%Q.
Proof.
  intros HW. unfold fit_scale, maxWidth. cbn [gtb Q_Number lit div].
  change (inject_Z (Z.of_nat 600)) with 600%Q.
  change (inject_Z (Z.of_nat 1)) with 1%Q.
  destruct (Qcompare_spec W 600) as [Heq|Hlt|Hgt].
  - rewrite Q.min_l; [reflexivity|]. rewrite Heq. by field_simplify.
  - rewrite Q.min_l; [reflexivity|].
    apply Qle_shift_div_l; [done|]. rewrite Qmult_1_l. by apply Qlt_le_weak.
  - rewrite Q.min_r; [reflexivity|].
    apply Qle_shift_div_r; [done|]. rewrite Qmult_1_l. by apply Qlt_le_weak.
Qed.

End EditorFacts.

Module WalletFacts.
Import Wallet.

Section Facts.
Context {num : Type} `{Number num}.
Variable parseFloat : string → num.
Variable toFixed : num → nat → string.

Implicit Types (s : State (num := num)).

(** Unfolds a handler down to matches on the answers it receives. *)
Ltac run_handler :=
  cbv [click_send sendTransaction updateBalance mbind mret M_bind M_ret
       try_catch try_finally await call update showMessage setLoading
       setBalance setBalanceUSD setSendForm setTransactions].

(** Closes a guard branch: the state is the initial one with a message. *)
Ltac guard_branch :=
  eexists _, _; split; [reflexivity|]; split; [|by split]; done.

Lemma falsy_true (x : string) : falsy x = true ↔ x = "".
Proof. by destruct x. Qed.

(** C6.  When the wallet is not connected (no [web3] instance or no
    account), or the recipient field or the amount field is empty, or the
    recipient is not a valid address, [sendTransaction] returns with an error
    message displayed, has issued no request to the provider, and has
    changed nothing but the message: the form and the history are as they
    were. *)
Theorem sendTransaction_validates now s :
  web3 s = None ∨ truthy (account s) = None ∨
  to (sendForm s) = "" ∨ amount (sendForm s) = "" ∨
  (∃ w, web3 s = Some w ∧ isAddress w (to (sendForm s)) = false) →
  ∃ s' error,
    click_send parseFloat toFixed now s = (Ok tt, s', []) ∧
    error ≠ "" ∧
    s' = set_message {| type := "error"; text := error |} s ∧
    sendForm s' = sendForm s ∧
    transactions s' = transactions s.
Proof.
  intros Hcase. run_handler.
  destruct (web3 s) as [w|] eqn:Hw.
  2: { guard_branch. }
  destruct (truthy (account s)) as [acct|] eqn:Ha.
  2: { guard_branch. }
  destruct (falsy (to (sendForm s))) eqn:Hto.
  { guard_branch. }
  destruct (falsy (amount (sendForm s))) eqn:Ham.
  { guard_branch. }
  destruct (isAddress w (to (sendForm s))) eqn:Haddr.
  2: { guard_branch. }
  exfalso. destruct Hcase as [?|[?|[Hc|[Hc|(w' & Hw' & Hc)]]]]; try done.
  - apply falsy_true in Hc. congruence.
  - apply falsy_true in Hc. congruence.
  - congruence.
Qed.

Lemma truthy_Some (x : option string) y : truthy x = Some y → x = Some y ∧ y ≠ "".
Proof. destruct x as [[|? ?]|]; cbn; intros [= <-]; done. Qed.

(** C7.  Whenever [sendTransaction] has issued the send request: if the
    provider answers it with a receipt, the history is the old one with
    exactly one record put in front, holding the receipt's hash, the
    recipient and the amount of the form, type "sent" and the timestamp; the
    form is back to its initial values; and the balance has been asked for
    again and shows the answer when one comes.  If the provider rejects the
    request, history and form are as before and the message is the error. *)
Theorem send_outcome now s w transaction r s' issued :
  web3 s = Some w →
  click_send parseFloat toFixed now s = (r, s', issued) →
  eth_sendTransaction transaction ∈ issued →
  (∀ receipt, sendTransaction_rpc w transaction = Ok receipt →
     transactions s' =
       {| hash := transactionHash receipt;
          tx_to := to (sendForm s);
          tx_amount := amount (sendForm s);
          tx_type := "sent";
          timestamp := now |} :: transactions s ∧
     sendForm s' = {| to := ""; amount := ""; gasPrice := "20" |} ∧
     ∃ address,
       account s = Some address ∧
       eth_getBalance address ∈ issued ∧
       ∀ balanceWei, getBalance w address = Ok balanceWei →
         balance s' = toFixed (parseFloat (fromWei w balanceWei "ether")) 4) ∧
  (∀ error, sendTransaction_rpc w transaction = Error error →
     transactions s' = transactions s ∧
     sendForm s' = sendForm s ∧
     message s' = {| type := "error";
                     text := "Transaction failed: " +:+ error |}).
Proof.
  intros Hw. run_handler. rewrite Hw.
  destruct (truthy (account s)) as [address|] eqn:Ha.
  2: { intros [= <- <- <-] Hin. by apply elem_of_nil in Hin. }
  apply truthy_Some in Ha as [Ha _].
  destruct (falsy (to (sendForm s)) || falsy (amount (sendForm s))).
  { intros [= <- <- <-] Hin. by apply elem_of_nil in Hin. }
  destruct (negb (isAddress w (to (sendForm s)))).
  { intros [= <- <- <-] Hin. by apply elem_of_nil in Hin. }
  destruct (toWei w (amount (sendForm s)) "ether") as [amountWei|e1].
  2: { intros [= <- <- <-] Hin. by apply elem_of_nil in Hin. }
  destruct (toWei w (gasPrice (sendForm s)) "gwei") as [gasPriceWei|e2].
  2: { intros [= <- <- <-] Hin. by apply elem_of_nil in Hin. }
  destruct (estimateGas w _) as [gasEstimate|e3].
  2: { intros [= <- <- <-] Hin. cbn in Hin.
       apply list_elem_of_singleton in Hin. discriminate. }
  destruct (sendTransaction_rpc w _) as [receipt|e4] eqn:Hsend.
  2: { intros [= <- <- <-] Hin. cbn in Hin.
       apply elem_of_cons in Hin as [?|Hin]; [discriminate|].
       apply list_elem_of_singleton in Hin. injection Hin as ->.
       rewrite Hsend. split; [done|]. by intros error [= <-]. }
  assert (Hsent : ∀ issued', eth_sendTransaction transaction ∈
            [eth_estimateGas {| call_from := address;
                                call_to := to (sendForm s);
                                call_value := amountWei |};
             eth_sendTransaction {| req_from := address;
                                    req_to := to (sendForm s);
                                    req_value := amountWei;
                                    req_gas := gasEstimate;
                                    req_gasPrice := gasPriceWei |}] ++ issued' →
            (∀ x, x ∈ issued' → x = eth_getBalance address) →
            sendTransaction_rpc w transaction = Ok receipt).
  { intros issued' Hin Hrest. rewrite <- Hsend. f_equal.
    cbn in Hin. apply elem_of_cons in Hin as [?|Hin]; [discriminate|].
    apply elem_of_cons in Hin as [Hin|Hin]; [by injection Hin|].
    apply Hrest in Hin. discriminate. }
  destruct (getBalance w address) as [balanceWei|e5] eqn:Hbal;
    [destruct (gtb (ethPrice s) (lit 0))|];
    intros [= <- <- <-] Hin;
    (apply Hsent in Hin;
     [|intros x Hx; by apply list_elem_of_singleton in Hx]);
    (split; [|intros error Herr; rewrite Hin in Herr; discriminate]);
    intros receipt' Hok; rewrite Hin in Hok; injection Hok as <-;
    (split; [done|]); (split; [done|]);
    exists address; (split; [done|]); (split; [set_solver|]);
    intros balanceWei' Hb; rewrite Hbal in Hb; by simplify_eq.
Qed.

End Facts.

(** *** The statements at sample inputs *)

Import Samples.

Lemma sendTransaction_validates_witness :
  to (sendForm empty_recipient) = "" ∧
  ∃ s' error,
    click_send parseFloat toFixed clock empty_recipient = (Ok tt, s', []) ∧
    error ≠ "" ∧
    s' = set_message {| type := "error"; text := error |} empty_recipient ∧
    sendForm s' = sendForm empty_recipient ∧
    transactions s' = transactions empty_recipient.
Proof.
  assert (Hto : to (sendForm empty_recipient) = "") by reflexivity.
  split; [exact Hto|].
  apply (sendTransaction_validates parseFloat toFixed clock empty_recipient).
  right. right. left. exact Hto.
Defined.

(** One send accepted by the provider, one rejected. *)
Lemma send_outcome_witness :
  let accepted := click_send parseFloat toFixed clock (connected true) in
  let rejected := click_send parseFloat toFixed clock (connected false) in
  web3 (connected true) = Some (provider true) ∧
  eth_sendTransaction sample_request ∈ accepted.2 ∧
  sendTransaction_rpc (provider true) sample_request =
    Ok {| transactionHash := "0x9fc7" |} ∧
  web3 (connected false) = Some (provider false) ∧
  eth_sendTransaction sample_request ∈ rejected.2 ∧
  sendTransaction_rpc (provider false) sample_request = Error "insufficient funds" ∧
  (transactions accepted.1.2 =
     {| hash := "0x9fc7";
        tx_to := to (sendForm (connected true));
        tx_amount := amount (sendForm (connected true));
        tx_type := "sent"; timestamp := clock |}
     :: transactions (connected true) ∧
   sendForm accepted.1.2 = {| to := ""; amount := ""; gasPrice := "20" |}) ∧
  (transactions rejected.1.2 = transactions (connected false) ∧
   sendForm rejected.1.2 = sendForm (connected false) ∧
   message rejected.1.2 =
     {| type := "error"; text := "Transaction failed: " +:+ "insufficient funds" |}).
Proof.
  intros accepted rejected.
  assert (Hw : web3 (connected true) = Some (provider true)) by reflexivity.
  assert (Hrun : click_send parseFloat toFixed clock (connected true) =
                 (accepted.1.1, accepted.1.2, accepted.2)).
  { fold accepted. by destruct accepted as [[? ?] ?]. }
  assert (Hin : eth_sendTransaction sample_request ∈ accepted.2).
  { vm_compute. apply list_elem_of_further, list_elem_of_here. }
  assert (Hok : sendTransaction_rpc (provider true) sample_request =
                Ok {| transactionHash := "0x9fc7" |}) by reflexivity.
  assert (Hw' : web3 (connected false) = Some (provider false)) by reflexivity.
  assert (Hrun' : click_send parseFloat toFixed clock (connected false) =
                  (rejected.1.1, rejected.1.2, rejected.2)).
  { fold rejected. by destruct rejected as [[? ?] ?]. }
  assert (Hin' : eth_sendTransaction sample_request ∈ rejected.2).
  { vm_compute. apply list_elem_of_further, list_elem_of_here. }
  assert (Herr : sendTransaction_rpc (provider false) sample_request =
                 Error "insufficient funds") by reflexivity.
  repeat (split; [assumption|]). split.
  - destruct (proj1 (send_outcome parseFloat toFixed clock (connected true)
                       _ _ _ _ _ Hw Hrun Hin) _ Hok) as (Ht & Hf & _).
    by split.
  - exact (proj2 (send_outcome parseFloat toFixed clock (connected false)
                    _ _ _ _ _ Hw' Hrun' Hin') _ Herr).
Defined.

End WalletFacts.

(** ** Facts about the wallet panel beyond sending *)

Module WalletConnectionFacts.
Import Wallet WalletConnection WalletPanel.

(** **** Slices of strings *)

Lemma length_substring (s : string) (n m : nat) :
  String.length (String.substring n m s) = min m (String.length s - n).
Proof.
  revert n m. induction s as [|c s IH]; intros [|n] [|m];
    cbn -[Nat.min Nat.sub]; rewrite ?IH; lia.
Qed.

Lemma append_cons (c : Ascii.ascii) (s1 s2 : string) :
  String c s1 +:+ s2 = String c (s1 +:+ s2).
Proof. reflexivity. Qed.

Lemma length_append (s1 s2 : string) :
  String.length (s1 +:+ s2) = String.length s1 + String.length s2.
Proof.
  induction s1 as [|c s1 IH]; [done|].
  rewrite append_cons. cbn. by rewrite IH.
Qed.

Lemma substring_all (s : string) (m : nat) :
  String.length s ≤ m → String.substring 0 m s = s.
Proof.
  revert m. induction s as [|c s IH]; intros [|m] Hlen; cbn in *; try done; try lia.
  rewrite IH; [done|lia].
Qed.

(** A string is its first [n] characters followed by the rest. *)
Lemma substring_split (s : string) (n : nat) :
  s = String.substring 0 n s +:+ String.substring n (String.length s - n) s.
Proof.
  revert n. induction s as [|c s IH]; intros [|n]; cbn; try done.
  - by rewrite substring_all.
  - rewrite append_cons. f_equal. apply IH.
Qed.

Lemma substring_suffix (s : string) (n k m : nat) :
  String.substring (n + k) m s =
  String.substring k m (String.substring n (String.length s - n) s).
Proof.
  revert n. induction s as [|c s IH]; intros [|n]; cbn -[Nat.sub].
  - by destruct k, m.
  - by destruct k, m.
  - rewrite Nat.sub_0_r.
    change (String.substring 0 (S (String.length s)) (String c s))
      with (String c (String.substring 0 (String.length s) s)).
    by rewrite substring_all.
  - apply IH.
Qed.

(** **** Display helpers *)

(** X1.  [formatAddress] gives the empty string for no address; otherwise at
    most 13 characters: up to six leading ones, three dots, up to four
    trailing ones.  From ten characters on these are the two ends of the
    address with the middle left out; an address of at most four characters
    appears twice in full. *)
Theorem formatAddress_shape :
  formatAddress None = "" ∧ formatAddress (Some "") = "" ∧
  (∀ a, a ≠ "" →
     String.length (formatAddress (Some a)) =
     min 6 (String.length a) + 3 + min 4 (String.length a)) ∧
  (∀ a, 10 ≤ String.length a →
     ∃ first middle last,
       a = first +:+ middle +:+ last ∧
       String.length first = 6 ∧ String.length last = 4 ∧
       formatAddress (Some a) = first +:+ "..." +:+ last) ∧
  (∀ a, a ≠ "" → String.length a ≤ 4 →
     formatAddress (Some a) = a +:+ "..." +:+ a).
Proof.
  split; [done|]. split; [done|]. split; [|split].
  - intros a Ha. unfold formatAddress.
    assert (truthy (Some a) = Some a) as -> by (by destruct a).
    unfold slice, slice_end.
    rewrite !length_append, !length_substring. cbn -[Nat.min Nat.sub]. lia.
  - intros a Hlen. unfold formatAddress.
    assert (truthy (Some a) = Some a) as ->
      by (destruct a; [cbn in Hlen; lia|done]).
    unfold slice, slice_end. cbn [Nat.sub].
    set (rest := String.substring 6 (String.length a - 6) a).
    assert (Hrest : String.length rest = String.length a - 6).
    { unfold rest. rewrite length_substring. lia. }
    exists (String.substring 0 6 a),
           (String.substring 0 (String.length rest - 4) rest),
           (String.substring (String.length a - 4) 4 a).
    split; [|split; [|split]].
    + rewrite (substring_split a 6) at 1. f_equal. fold rest.
      rewrite (substring_split rest (String.length rest - 4)) at 1. f_equal.
      replace (String.length a - 4) with (6 + (String.length rest - 4)) by lia.
      rewrite substring_suffix. fold rest. f_equal. lia.
    + rewrite length_substring. lia.
    + rewrite length_substring. lia.
    + done.
  - intros a Ha Hlen. unfold formatAddress.
    assert (truthy (Some a) = Some a) as -> by (by destruct a).
    unfold slice, slice_end.
    replace (String.length a - 4) with 0 by lia.
    by rewrite !substring_all by lia.
Qed.

(** **** Networks *)

Lemma networks_lookup (chainId : string) :
  networks !! chainId =
  if decide ("0x1" = chainId) then Some "Ethereum Mainnet"
  else if decide ("0x5" = chainId) then Some "Goerli Testnet"
  else if decide ("0xaa36a7" = chainId) then Some "Sepolia Testnet"
  else None.
Proof.
  unfold networks. rewrite !lookup_insert, lookup_empty.
  by repeat case_decide.
Qed.

Lemma supported_iff (chainId : string) :
  chainId ∈ supportedNetworks ↔
  chainId = "0x1" ∨ chainId = "0x5" ∨ chainId = "0xaa36a7".
Proof.
  unfold supportedNetworks.
  rewrite !elem_of_cons, elem_of_nil. tauto.
Qed.

(** Unfolds [sendTransaction] down to matches on the answers it receives. *)
Ltac run_send :=
  cbv [click_send sendTransaction updateBalance mbind mret M_bind M_ret
       try_catch try_finally await call update showMessage setLoading
       setBalance setBalanceUSD setSendForm setTransactions].

(** Splits a run of [sendTransaction] into its paths. *)
Ltac send_paths s :=
  run_send;
  destruct (web3 s) as [w|] eqn:Hw; [|cbn];
  [destruct (truthy (account s)) as [address|] eqn:Ha; [|cbn];
   [destruct (falsy (to (sendForm s))) eqn:Hto; [cbn|];
    [|destruct (falsy (amount (sendForm s))) eqn:Hamount; [cbn|];
      [|destruct (isAddress w (to (sendForm s))) eqn:Haddr; [|cbn];
        [destruct (toWei w (amount (sendForm s)) "ether") as [amountWei|e1] eqn:Hwei;
           [|cbn];
         [destruct (toWei w (gasPrice (sendForm s)) "gwei") as [gasPriceWei|e2] eqn:Hgwei;
            [|cbn];
          [destruct (estimateGas w {| call_from := address;
                                      call_to := to (sendForm s);
                                      call_value := amountWei |})
             as [gasEstimate|e3] eqn:Hgas; [|cbn];
           [destruct (sendTransaction_rpc w
                        {| req_from := address; req_to := to (sendForm s);
                           req_value := amountWei; req_gas := gasEstimate;
                           req_gasPrice := gasPriceWei |})
              as [receipt|e4] eqn:Hsend; [|cbn];
            [destruct (getBalance w address) as [balanceWei|e5] eqn:Hbal; [|cbn];
             [destruct (gtb (ethPrice s) (lit 0)) eqn:Hprice; cbn|]|]|]|]|]|]]]|]|].

Section Network.
Context {num : Type} `{Number num}.
Variable show_inherited : string → string.

Implicit Types (s : State (num := num)).

(** X2.  [checkNetwork] marks the network correct exactly for the chain ids
    0x1, 0x5 and 0xaa36a7.  For these it shows no message, and they are the
    ids [getNetworkName] has a name for; for any other id (not the name of a
    member every object inherits) it shows an error that reports the current
    network as "Unknown Network (id)". *)
Theorem checkNetwork_supported (chainId : string) s :
  (isCorrectNetwork (checkNetwork show_inherited chainId s) = true ↔
   chainId = "0x1" ∨ chainId = "0x5" ∨ chainId = "0xaa36a7") ∧
  (chainId = "0x1" ∨ chainId = "0x5" ∨ chainId = "0xaa36a7" →
   checkNetwork show_inherited chainId s = set_isCorrectNetwork true s ∧
   ∃ name, getNetworkName chainId = own name ∧
           name ∈ ["Ethereum Mainnet"; "Goerli Testnet"; "Sepolia Testnet"]) ∧
  (¬ (chainId = "0x1" ∨ chainId = "0x5" ∨ chainId = "0xaa36a7") →
   chainId ∉ Object_prototype →
   getNetworkName chainId = own ("Unknown Network (" +:+ chainId +:+ ")") ∧
   checkNetwork show_inherited chainId s =
   show_message "error"
     ("Unsupported network. Please switch to Ethereum Mainnet, Goerli, or Sepolia testnet. Current: "
      +:+ "Unknown Network (" +:+ chainId +:+ ")")
     (set_isCorrectNetwork false s)).
Proof.
  rewrite <- supported_iff. unfold checkNetwork. split; [|split].
  - case_bool_decide; cbn; [done|]. split; [done|]. intros ?. done.
  - intros Hin. rewrite bool_decide_eq_true_2 by done. cbn. split; [done|].
    unfold getNetworkName, get. rewrite networks_lookup.
    apply supported_iff in Hin as [-> | [-> | ->]]; cbn; eexists; (split; [done|]);
      set_solver.
  - intros Hout Hproto. rewrite bool_decide_eq_false_2 by done. cbn.
    assert (Hname : getNetworkName chainId =
                    own ("Unknown Network (" +:+ chainId +:+ ")")).
    { unfold getNetworkName, get. rewrite networks_lookup.
      rewrite supported_iff in Hout.
      repeat case_decide; try (exfalso; apply Hout; by eauto).
      by rewrite bool_decide_eq_false_2. }
    by rewrite Hname.
Qed.

End Network.

Section Facts.
Context {num : Type} `{Number num}.
Variable parseFloat : string → num.
Variable toFixed : num → nat → string.

Implicit Types (s : State (num := num)).

(** **** Connecting *)

(** X3.  When [connectWallet] obtains no account (no provider in the page, a
    rejected request, or an answer without accounts), the connection state
    ([web3], [account], [isConnected]) is what it was, no listener is
    registered and [loading] is false.  Without a provider nothing is asked
    and the message says MetaMask is missing; a rejection shows the text for
    its code (4001: rejected by the user, -32002: already pending, otherwise
    the error's own message); an empty answer shows nothing at all. *)
Theorem connectWallet_failure (ethereum : option Ethereum) s :
  match ethereum with
  | None => True
  | Some e => match eth_requestAccounts e with
              | Resolved accounts => accounts = []
              | Rejected _ => True
              end
  end →
  let s' := (connectWallet ethereum s).1 in
  let calls := (connectWallet ethereum s).2 in
  (web3 s' = web3 s ∧ account s' = account s ∧ isConnected s' = isConnected s) ∧
  loading s' = false ∧
  (∀ event, on event ∉ calls) ∧
  (ethereum = None →
   calls = [] ∧
   message s' =
     {| type := "error";
        text := "MetaMask is not installed. Please install MetaMask browser extension to use this wallet." |}) ∧
  (∀ e, ethereum = Some e → eth_requestAccounts e = Resolved [] →
   calls = [request "eth_requestAccounts"] ∧ message s' = message s) ∧
  (∀ e error, ethereum = Some e → eth_requestAccounts e = Rejected error →
   calls = [request "eth_requestAccounts"] ∧
   type (message s') = "error" ∧
   (code error = Some 4001%Z →
    text (message s') =
      "Connection rejected. Please approve the connection in MetaMask.") ∧
   (code error = Some (-32002)%Z →
    text (message s') =
      "Connection request already pending. Please check MetaMask.") ∧
   (code error ≠ Some 4001%Z → code error ≠ Some (-32002)%Z →
    text (message s') = "Failed to connect wallet: " +:+ error_message error)).
Proof.
  intros Hfail s' calls. subst s' calls. unfold connectWallet.
  destruct ethereum as [e|]; cbn.
  - destruct (eth_requestAccounts e) as [accounts|error] eqn:Hreq; cbn.
    + subst accounts. cbn.
      split; [done|]. split; [done|]. split.
      { intros event Hin. apply list_elem_of_singleton in Hin. discriminate. }
      split; [done|]. split.
      { by intros e' [= <-] _. }
      intros e' error [= <-] Hrej. rewrite Hreq in Hrej. discriminate.
    + split; [done|]. split; [done|]. split.
      { intros event Hin. apply list_elem_of_singleton in Hin. discriminate. }
      split; [done|]. split.
      { intros e' [= <-] Hres. rewrite Hreq in Hres. discriminate. }
      intros e' error' [= <-] Hrej. rewrite Hreq in Hrej.
      injection Hrej as <-. split; [done|]. split; [done|].
      unfold connect_error. split; [|split].
      * intros Hcode. by rewrite bool_decide_eq_true_2.
      * intros Hcode. rewrite bool_decide_eq_false_2 by (by rewrite Hcode).
        by rewrite bool_decide_eq_true_2.
      * intros Hne1 Hne2. by rewrite !bool_decide_eq_false_2.
  - split; [done|]. split; [done|]. split.
    { intros event Hin. by apply elem_of_nil in Hin. }
    done.
Qed.

(** X4.  When the provider answers [connectWallet] with accounts, the first
    one becomes the account and the others are ignored; the wallet is marked
    connected, an existing [web3] instance is kept and otherwise one is built
    over the provider; the two listeners are registered after the request;
    [loading] is false again and the form, the history, the balance and the
    network fields are untouched. *)
Theorem connectWallet_success (e : Ethereum) s (a : string) (others : list string) :
  eth_requestAccounts e = Resolved (a :: others) →
  let s' := (connectWallet (Some e) s).1 in
  let calls := (connectWallet (Some e) s).2 in
  account s' = Some a ∧ isConnected s' = true ∧
  web3 s' = Some (default (new_Web3 e) (web3 s)) ∧
  message s' = {| type := "success"; text := "Wallet connected successfully!" |} ∧
  loading s' = false ∧
  calls = [request "eth_requestAccounts"; on "accountsChanged"; on "chainChanged"] ∧
  sendForm s' = sendForm s ∧ transactions s' = transactions s ∧
  balance s' = balance s ∧ balanceUSD s' = balanceUSD s ∧
  networkId s' = networkId s ∧ isCorrectNetwork s' = isCorrectNetwork s.
Proof.
  intros Hreq s' calls. subst s' calls. unfold connectWallet.
  rewrite Hreq. cbn. destruct (web3 s) eqn:Hw; cbn; by rewrite ?Hw.
Qed.

(** X5.  When a request of [initializeWeb3] is rejected, the panel shows
    the initialisation error and records no chain id, but it keeps the
    [web3] instance it built; and when the rejected request is the one for
    the chain id, an account found just before stays connected: the error
    message does not mean that the panel is disconnected. *)
Theorem initializeWeb3_failure (show_inherited : string → string) (eth : Ethereum) s :
  (∃ error, eth_accounts eth = Rejected error) ∨
  (∃ error, eth_chainId eth = Rejected error) →
  let s' := (initializeWeb3 show_inherited (Some eth) s).1 in
  let calls := (initializeWeb3 show_inherited (Some eth) s).2 in
  message s' =
    {| type := "error";
       text := "Failed to initialize Web3. Please refresh the page and try again." |} ∧
  web3 s' = Some (new_Web3 eth) ∧
  networkId s' = networkId s ∧ isCorrectNetwork s' = isCorrectNetwork s ∧
  (∀ error, eth_accounts eth = Rejected error →
     calls = [request "eth_accounts"] ∧
     account s' = account s ∧ isConnected s' = isConnected s) ∧
  (∀ accounts, eth_accounts eth = Resolved accounts →
     calls = [request "eth_accounts"; request "eth_chainId"] ∧
     match accounts with
     | a :: _ => account s' = Some a ∧ isConnected s' = true
     | [] => account s' = account s ∧ isConnected s' = isConnected s
     end).
Proof.
  intros Hfail s' calls. subst s' calls. unfold initializeWeb3.
  destruct (eth_accounts eth) as [accounts|error] eqn:Hacc.
  - destruct Hfail as [[error [=]]|[error Hchain]]. rewrite Hchain.
    split; [done|]. split; [by destruct accounts|].
    split; [by destruct accounts|]. split; [by destruct accounts|].
    split; [done|]. intros accounts' [= <-]. split; [done|]. by destruct accounts.
  - split; [done|]. split; [done|]. split; [done|]. split; [done|].
    split; [done|]. by intros accounts [=].
Qed.

(** **** Sending *)

(** X6.  [sendTransaction] never ends in an exception, whatever the provider
    answers, and never touches the connection ([web3], [account],
    [isConnected]).  Once past its three checks it always ends with [loading]
    false; when a check stops it, [loading] is left as it was and nothing was
    asked of the provider. *)
Theorem sendTransaction_settles (now : string) s :
  let r := (click_send parseFloat toFixed now s).1.1 in
  let s' := (click_send parseFloat toFixed now s).1.2 in
  let issued := (click_send parseFloat toFixed now s).2 in
  r = Ok tt ∧
  web3 s' = web3 s ∧ account s' = account s ∧ isConnected s' = isConnected s ∧
  (loading s' = false ∨ (loading s' = loading s ∧ issued = [])).
Proof.
  intros r s' issued. subst r s' issued.
  send_paths s; repeat split; auto.
Qed.

Lemma truthy_account s (address : string) :
  truthy (account s) = Some address → account s = Some address ∧ address ≠ "".
Proof. destruct (account s) as [[|? ?]|]; cbn; intros [= <-]; done. Qed.

(** X7.  What [sendTransaction] asks of the provider is at most a gas
    estimate, then the send, then the balance.  Every request goes out for
    the connected account, to the recipient of the form, which [isAddress]
    accepted, and with the converted amount of the form; the send is only
    issued after the estimate for exactly this transfer was answered and
    carries that estimate as gas; the balance is only asked after the send
    was answered with a receipt. *)
Theorem send_requests_wellformed (now : string) s :
  let issued := (click_send parseFloat toFixed now s).2 in
  length issued ≤ 3 ∧
  (∀ q, eth_estimateGas q ∈ issued →
     ∃ w, web3 s = Some w ∧ account s = Some (call_from q) ∧
          call_to q = to (sendForm s) ∧ isAddress w (call_to q) = true ∧
          toWei w (amount (sendForm s)) "ether" = Ok (call_value q)) ∧
  (∀ t, eth_sendTransaction t ∈ issued →
     ∃ w, web3 s = Some w ∧ account s = Some (req_from t) ∧
          req_to t = to (sendForm s) ∧ isAddress w (req_to t) = true ∧
          toWei w (amount (sendForm s)) "ether" = Ok (req_value t) ∧
          toWei w (gasPrice (sendForm s)) "gwei" = Ok (req_gasPrice t) ∧
          estimateGas w {| call_from := req_from t; call_to := req_to t;
                           call_value := req_value t |} = Ok (req_gas t) ∧
          ∃ rest, issued =
                  eth_estimateGas {| call_from := req_from t; call_to := req_to t;
                                     call_value := req_value t |}
                  :: eth_sendTransaction t :: rest) ∧
  (∀ a, eth_getBalance a ∈ issued →
     account s = Some a ∧
     ∃ w t receipt, web3 s = Some w ∧ eth_sendTransaction t ∈ issued ∧
                    sendTransaction_rpc w t = Ok receipt).
Proof.
  intros issued. subst issued.
  send_paths s; try apply truthy_account in Ha as [Ha _];
    (split; [cbn; lia|]); (split; [|split]);
    intros x Hin; cbn in Hin;
    repeat (apply elem_of_cons in Hin as [Hin|Hin]; [try discriminate|]);
    try (by apply elem_of_nil in Hin); simplify_eq; cbn.
  all: try (exists w; repeat split; eauto; fail).
  all: try (split; [done|]; eexists w, _, _; split; [done|]; split; [|done];
            set_solver).
Qed.

(** X8.  Every run of [sendTransaction] ends with a message, and the message
    tells what happened.  It is a success message exactly when the provider
    answered the send with a receipt, whose hash it quotes, and then the
    history has one more entry.  Otherwise it is an error message, and the
    history, the form and the displayed balance are what they were: either
    one of the three refusals of the checks, with nothing asked of the
    provider, or "Transaction failed: " followed by the message of the error
    that a conversion, the gas estimate or the send raised. *)
Theorem send_ends_with_message (now : string) s :
  let s' := (click_send parseFloat toFixed now s).1.2 in
  let issued := (click_send parseFloat toFixed now s).2 in
  (type (message s') = "success" ∧
   length (transactions s') = S (length (transactions s)) ∧
   ∃ w t receipt,
     web3 s = Some w ∧ eth_sendTransaction t ∈ issued ∧
     sendTransaction_rpc w t = Ok receipt ∧
     text (message s') =
       "Transaction sent successfully! Hash: " +:+ transactionHash receipt) ∨
  (type (message s') = "error" ∧
   transactions s' = transactions s ∧ sendForm s' = sendForm s ∧
   balance s' = balance s ∧ balanceUSD s' = balanceUSD s ∧
   (∀ w t receipt, web3 s = Some w → eth_sendTransaction t ∈ issued →
                   sendTransaction_rpc w t ≠ Ok receipt) ∧
   ((issued = [] ∧
     text (message s') ∈ ["Please connect your wallet first";
                          "Please fill in all fields";
                          "Invalid recipient address"]) ∨
    ∃ error, text (message s') = "Transaction failed: " +:+ error)).
Proof.
  intros s' issued. subst s' issued.
  send_paths s.
  all: first
    [ left; (split; [done|]); (split; [done|]);
      eexists w, _, receipt; (split; [done|]);
      (split; [apply list_elem_of_further, list_elem_of_here|]); done
    | right; (split; [done|]); (split; [done|]); (split; [done|]);
      (split; [done|]); (split; [done|]); split ].
  all: try (intros w' t receipt' Hw' Hin; cbn in Hin;
            repeat (apply elem_of_cons in Hin as [Hin|Hin]; [try discriminate|]);
            try (by apply elem_of_nil in Hin); simplify_eq; congruence).
  all: try (left; split; [done|]; set_solver).
  all: right; by eexists.
Qed.

End Facts.

(** *** Sessions *)

Section Sessions.
Context {num : Type} `{Number num}.
Variable parseFloat : string → num.
Variable toFixed : num → nat → string.
Variable show_inherited : string → string.

Implicit Types (s : State (num := num)) (p : Panel (num := num))
  (e : event (num := num)) (events : list (event (num := num))).

#[local] Abbreviation handle := (WalletPanel.handle parseFloat toFixed show_inherited).
#[local] Abbreviation run := (WalletPanel.run parseFloat toFixed show_inherited).
#[local] Abbreviation session := (WalletPanel.session parseFloat toFixed show_inherited).

Lemma click_send_connection now s :
  connection (click_send parseFloat toFixed now s).1.2 = connection s.
Proof. send_paths s; done. Qed.

Lemma accountEffect_connection s :
  connection (accountEffect parseFloat toFixed s) = connection s.
Proof.
  unfold accountEffect. run_send.
  destruct (truthy (account s)) as [a|]; [|done].
  destruct (web3 s) as [w|]; [|done]. cbn.
  destruct (getBalance w a); [|done]. cbn.
  by destruct (gtb (ethPrice s) (lit 0)).
Qed.

Lemma copyAddress_connection s : connection (copyAddress s) = connection s.
Proof. unfold copyAddress. by destruct (truthy (account s)). Qed.

Lemma run_snoc events e p : run (events ++ [e]) p = handle e (run events p).
Proof. unfold WalletPanel.run. by rewrite fold_left_app. Qed.

Lemma run_cons events e p : run (e :: events) p = run events (handle e p).
Proof. done. Qed.

Lemma checkNetwork_frame chainId s :
  let s' := checkNetwork show_inherited chainId s in
  web3 s' = web3 s ∧ account s' = account s ∧ isConnected s' = isConnected s ∧
  networkId s' = networkId s ∧ transactions s' = transactions s ∧
  isCorrectNetwork s' = bool_decide (chainId ∈ supportedNetworks).
Proof. unfold checkNetwork. by case_bool_decide. Qed.

Lemma iter_idempotent {A} (f : A → A) (n : nat) (a : A) :
  (∀ a, f (f a) = f a) → Nat.iter (S n) f a = f a.
Proof.
  intros Hf. induction n as [|n IH]; [done|].
  change (Nat.iter (S (S n)) f a) with (f (Nat.iter (S n) f a)).
  by rewrite IH.
Qed.

Lemma accountsChanged_idempotent newAccounts s :
  accountsChanged newAccounts (accountsChanged newAccounts s) =
  accountsChanged newAccounts s.
Proof. by destruct newAccounts. Qed.

Lemma chainChanged_idempotent chainId s :
  chainChanged show_inherited chainId (chainChanged show_inherited chainId s) =
  chainChanged show_inherited chainId s.
Proof. unfold chainChanged, checkNetwork. by case_bool_decide. Qed.

Lemma iter_accountsChanged n newAccounts s :
  Nat.iter n (accountsChanged newAccounts) s =
  match n with 0 => s | S _ => accountsChanged newAccounts s end.
Proof.
  destruct n; [done|].
  apply iter_idempotent. intros. apply accountsChanged_idempotent.
Qed.

Lemma iter_chainChanged n chainId s :
  Nat.iter n (chainChanged show_inherited chainId) s =
  match n with 0 => s | S _ => chainChanged show_inherited chainId s end.
Proof.
  destruct n; [done|].
  apply iter_idempotent. intros. apply chainChanged_idempotent.
Qed.

Lemma connection_fields s s' :
  connection s' = connection s →
  web3 s' = web3 s ∧ account s' = account s ∧ isConnected s' = isConnected s ∧
  networkId s' = networkId s ∧ isCorrectNetwork s' = isCorrectNetwork s.
Proof. by intros [= -> -> -> -> ->]. Qed.

Lemma connected_ok_connection s s' :
  connection s' = connection s → connected_ok s → connected_ok s'.
Proof.
  intros (Hw & Ha & Hc & _)%connection_fields. unfold connected_ok.
  by rewrite Hw, Ha, Hc.
Qed.

Lemma network_ok_connection s s' :
  connection s' = connection s → network_ok s → network_ok s'.
Proof.
  intros (_ & _ & _ & Hn & Hc)%connection_fields. unfold network_ok.
  by rewrite Hn, Hc.
Qed.

Lemma connectWallet_connected_ok ethereum s :
  connected_ok s → connected_ok (connectWallet ethereum s).1.
Proof.
  unfold connected_ok, connectWallet. intros Hok.
  destruct ethereum as [eth|]; [|done].
  destruct (eth_requestAccounts eth) as [[|a others]|error]; cbn; try done.
  intros _. by destruct (web3 s) eqn:Hw; cbn; rewrite ?Hw.
Qed.

Lemma connectWallet_network ethereum s :
  networkId (connectWallet ethereum s).1 = networkId s ∧
  isCorrectNetwork (connectWallet ethereum s).1 = isCorrectNetwork s.
Proof.
  unfold connectWallet.
  destruct ethereum as [eth|]; [|done].
  destruct (eth_requestAccounts eth) as [[|a others]|error]; cbn; try done.
  by destruct (web3 s).
Qed.

Lemma accountsChanged_connected_ok newAccounts s :
  connected_ok s → connected_ok (accountsChanged newAccounts s).
Proof.
  unfold connected_ok. destruct newAccounts as [|a others]; cbn; [done|].
  intros Hok Hc. by destruct (Hok Hc).
Qed.

Lemma handle_connected_ok e p :
  connected_ok (state p) → connected_ok (state (handle e p)).
Proof.
  intros Hok. destruct e; cbn.
  - destruct (negb _ && negb _); [|done].
    pose proof (connectWallet_connected_ok ethereum (state p) Hok) as Hc.
    by destruct (connectWallet ethereum (state p)).
  - destruct (_ && _); [|done]. cbn.
    by eapply connected_ok_connection; [apply click_send_connection|].
  - destruct (isConnected _); [|done]. cbn.
    by eapply connected_ok_connection; [apply copyAddress_connection|].
  - by destruct (isConnected _) eqn:?.
  - by destruct (isConnected _) eqn:?.
  - by destruct (isConnected _) eqn:?.
  - rewrite iter_accountsChanged. destruct (listening _ _); [done|].
    by apply accountsChanged_connected_ok.
  - rewrite iter_chainChanged. destruct (listening _ _); [done|].
    unfold chainChanged.
    destruct (checkNetwork_frame chainId (set_networkId (Some chainId) (state p)))
      as (Hw & Ha & Hc & _).
    unfold connected_ok. by rewrite Hw, Ha, Hc.
  - done.
  - by eapply connected_ok_connection; [apply accountEffect_connection|].
  - done.
Qed.

Lemma mount_connected_ok ethereum :
  connected_ok (state (mount show_inherited ethereum)).
Proof.
  unfold mount, initializeWeb3. destruct ethereum as [eth|]; [|done].
  destruct (eth_accounts eth) as [accounts|error]; [|done].
  destruct (eth_chainId eth) as [chainId|error]; cbn.
  - destruct (checkNetwork_frame chainId
      (set_networkId (Some chainId)
         match accounts with
         | [] => set_web3 (Some (new_Web3 eth)) initial
         | account0 :: _ =>
           set_isConnected true
             (set_account (Some account0) (set_web3 (Some (new_Web3 eth)) initial))
         end)) as (Hw & Ha & Hc & _).
    unfold connected_ok. rewrite Hw, Ha, Hc. by destruct accounts.
  - by destruct accounts.
Qed.

Lemma run_connected_ok events p :
  connected_ok (state p) → connected_ok (state (run events p)).
Proof.
  revert p. induction events as [|e events IH]; intros p Hok; [done|].
  rewrite run_cons. by apply IH, handle_connected_ok.
Qed.

(** X9.  In every session, whenever the connected view is shown the panel
    holds a [web3] instance and an account: mounting, connecting, the
    provider's events, sending and the timers never leave [isConnected] set
    without them.  So, unless the provider reported the empty string as the
    account, a click on Send in that view is never refused with "Please
    connect your wallet first". *)
Theorem connected_view_has_account ethereum events :
  let s := state (session ethereum events) in
  isConnected s = true →
  is_Some (web3 s) ∧ is_Some (account s) ∧
  (account s ≠ Some "" → ∀ now,
     text (message (click_send parseFloat toFixed now s).1.2) ≠
     "Please connect your wallet first").
Proof.
  intros s Hc.
  assert (Hok : connected_ok s) by apply run_connected_ok, mount_connected_ok.
  destruct (Hok Hc) as [[w0 Hw0] [a Ha0]].
  split; [by eexists|]. split; [by eexists|].
  intros Hne now. rewrite Ha0 in Hne.
  assert (Ht : truthy (account s) = Some a).
  { rewrite Ha0. destruct a; [done|]. done. }
  clearbody s. send_paths s; try discriminate; cbn; try done.
  all: intros Heq; by apply (f_equal (λ x, String.get 0 x)) in Heq.
Qed.

Lemma chainChanged_network_ok chainId s :
  network_ok (chainChanged show_inherited chainId s).
Proof.
  unfold chainChanged, network_ok.
  destruct (checkNetwork_frame chainId (set_networkId (Some chainId) s))
    as (_ & _ & _ & Hn & _ & Hc).
  by rewrite Hn, Hc.
Qed.

Lemma handle_network_ok e p :
  network_ok (state p) → network_ok (state (handle e p)).
Proof.
  intros Hok. destruct e; cbn.
  - destruct (negb _ && negb _); [|done].
    destruct (connectWallet_network ethereum (state p)) as [Hn Hc].
    destruct (connectWallet ethereum (state p)). cbn in *.
    unfold network_ok. by rewrite Hn, Hc.
  - destruct (_ && _); [|done]. cbn.
    by eapply network_ok_connection; [apply click_send_connection|].
  - destruct (isConnected _); [|done]. cbn.
    by eapply network_ok_connection; [apply copyAddress_connection|].
  - by destruct (isConnected _) eqn:?.
  - by destruct (isConnected _) eqn:?.
  - by destruct (isConnected _) eqn:?.
  - rewrite iter_accountsChanged. destruct (listening _ _); [done|].
    by destruct newAccounts.
  - rewrite iter_chainChanged. destruct (listening _ _); [done|].
    apply chainChanged_network_ok.
  - done.
  - by eapply network_ok_connection; [apply accountEffect_connection|].
  - done.
Qed.

Lemma mount_network_ok ethereum :
  network_ok (state (mount show_inherited ethereum)).
Proof.
  unfold mount, initializeWeb3. destruct ethereum as [eth|]; [|done].
  destruct (eth_accounts eth) as [accounts|error]; [|done].
  destruct (eth_chainId eth) as [chainId|error]; cbn.
  - apply (chainChanged_network_ok chainId).
  - by destruct accounts.
Qed.

(** X10.  In every session the two network fields agree: as long as no chain
    id was recorded the wrong-network warning is off, and once one is
    recorded the warning is on exactly when that id is not one of the three
    supported ones.  The warning therefore never has to name a missing
    chain id. *)
Theorem network_warning_consistent ethereum events :
  let s := state (session ethereum events) in
  match networkId s with
  | None => isCorrectNetwork s = true
  | Some chainId =>
    isCorrectNetwork s = true ↔
    chainId = "0x1" ∨ chainId = "0x5" ∨ chainId = "0xaa36a7"
  end.
Proof.
  intros s.
  assert (Hok : network_ok s).
  { subst s. unfold WalletPanel.session.
    generalize (mount_network_ok ethereum).
    generalize (mount show_inherited ethereum).
    induction events as [|e events IH]; intros p Hp; [done|].
    rewrite run_cons. by apply IH, handle_network_ok. }
  unfold network_ok in Hok. destruct (networkId s) as [chainId|]; [|done].
  rewrite Hok, bool_decide_eq_true. apply supported_iff.
Qed.

(** **** The history *)

Lemma click_send_transactions now s :
  let s' := (click_send parseFloat toFixed now s).1.2 in
  transactions s' = transactions s ∨
  ∃ tx, tx_type tx = "sent" ∧ transactions s' = tx :: transactions s.
Proof.
  intros s'. subst s'.
  send_paths s;
    first [by left | right; eexists; split; [|reflexivity]; reflexivity].
Qed.

Lemma accountEffect_transactions s :
  transactions (accountEffect parseFloat toFixed s) = transactions s.
Proof.
  unfold accountEffect. run_send.
  destruct (truthy (account s)) as [a|]; [|done].
  destruct (web3 s) as [w|]; [|done]. cbn.
  destruct (getBalance w a); [|done]. cbn.
  by destruct (gtb (ethPrice s) (lit 0)).
Qed.

Lemma connectWallet_transactions ethereum s :
  transactions (connectWallet ethereum s).1 = transactions s.
Proof.
  unfold connectWallet.
  destruct ethereum as [eth|]; [|done].
  destruct (eth_requestAccounts eth) as [[|a others]|error]; cbn; try done.
  by destruct (web3 s).
Qed.

Lemma handle_transactions e p :
  transactions (state (handle e p)) = transactions (state p) ∨
  is_send e = true ∧
  ∃ tx, tx_type tx = "sent" ∧
        transactions (state (handle e p)) = tx :: transactions (state p).
Proof.
  destruct e; cbn.
  - destruct (negb _ && negb _); [|by left].
    pose proof (connectWallet_transactions ethereum (state p)) as Ht.
    destruct (connectWallet ethereum (state p)). by left.
  - destruct (_ && _); [|by left]. cbn.
    destruct (click_send_transactions now (state p)) as [?|?]; [by left|].
    by right.
  - destruct (isConnected _); [|by left]. cbn. left.
    unfold copyAddress. by destruct (truthy _).
  - left. by destruct (isConnected _).
  - left. by destruct (isConnected _).
  - left. by destruct (isConnected _).
  - left. rewrite iter_accountsChanged. destruct (listening _ _); [done|].
    by destruct newAccounts.
  - left. rewrite iter_chainChanged. destruct (listening _ _); [done|].
    unfold chainChanged.
    by destruct (checkNetwork_frame chainId (set_networkId (Some chainId) (state p)))
      as (_ & _ & _ & _ & -> & _).
  - by left.
  - left. apply accountEffect_transactions.
  - by left.
Qed.

(** X11.  Over any events, the history only grows: it is the old history
    with new records in front, at most one for each click on Send, and every
    new record has type "sent".  Nothing removes or rewrites a record;
    disconnecting or switching to another account keeps the records of the
    transfers sent before. *)
Theorem history_only_grows events p :
  ∃ new,
    transactions (state (run events p)) = new ++ transactions (state p) ∧
    Forall (λ tx, tx_type tx = "sent") new ∧
    length new ≤ length (filter (λ e, is_send e = true) events).
Proof.
  revert p. induction events as [|e events IH]; intros p.
  { exists []. by repeat split. }
  rewrite run_cons. destruct (IH (handle e p)) as (new & Hnew & Hsent & Hlen).
  destruct (handle_transactions e p) as [Hsame|(Hsend & tx & Htx & Hcons)].
  - exists new. rewrite Hnew, Hsame. split; [done|]. split; [done|].
    rewrite filter_cons. case_decide; cbn; lia.
  - exists (new ++ [tx]). rewrite Hnew, Hcons, <- app_assoc. split; [done|].
    split; [by apply Forall_app; split; [|apply Forall_singleton]|].
    rewrite filter_cons_True by done. rewrite length_app. cbn. lia.
Qed.

(** **** Listeners *)

Lemma connectWallet_registrations ethereum s :
  registrations (connectWallet ethereum s).2 = [] ∧
  isConnected (connectWallet ethereum s).1 = isConnected s ∨
  registrations (connectWallet ethereum s).2 = ["accountsChanged"; "chainChanged"] ∧
  isConnected (connectWallet ethereum s).1 = true.
Proof.
  unfold connectWallet.
  destruct ethereum as [eth|]; [|by left].
  destruct (eth_requestAccounts eth) as [[|a others]|error]; cbn; try by left.
  by right.
Qed.

Lemma handle_connect ethereum p :
  handle (ConnectClicked ethereum) p =
  if negb (isConnected (state p)) && negb (loading (state p)) then
    {| state := (connectWallet ethereum (state p)).1;
       listeners := listeners p ++ registrations (connectWallet ethereum (state p)).2 |}
  else p.
Proof. cbn. by destruct (connectWallet ethereum (state p)). Qed.

Lemma handle_listeners e p :
  listeners (handle e p) = listeners p ∨
  (∃ ethereum, e = ConnectClicked ethereum) ∧
  isConnected (state p) = false ∧ isConnected (state (handle e p)) = true ∧
  listeners (handle e p) = listeners p ++ ["accountsChanged"; "chainChanged"].
Proof.
  destruct e; try (by left); try (by cbn; destruct (isConnected _); left).
  - rewrite handle_connect.
    destruct (isConnected (state p)) eqn:Hc; [by left|].
    destruct (loading _); [by left|].
    destruct (connectWallet_registrations ethereum (state p)) as [[Hr _]|[Hr Hc']];
      cbn [negb andb state listeners]; rewrite Hr.
    + left. apply app_nil_r.
    + right. by eauto.
  - cbn. by destruct (_ && _); left.
Qed.

Lemma mount_listeners ethereum : listeners (mount show_inherited ethereum) = [].
Proof.
  unfold mount, initializeWeb3. destruct ethereum as [eth|]; [|done].
  destruct (eth_accounts eth) as [accounts|error]; [|done].
  by destruct (eth_chainId eth).
Qed.

Lemma run_listeners events p :
  ∃ n, listeners (run events p) =
       listeners p ++ concat (replicate n ["accountsChanged"; "chainChanged"]) ∧
       n ≤ length (filter (λ e, is_connect e = true) events).
Proof.
  revert p. induction events as [|e events IH]; intros p.
  { exists 0. split; [by rewrite app_nil_r|done]. }
  rewrite run_cons. destruct (IH (handle e p)) as (n & Hn & Hle).
  destruct (handle_listeners e p) as [Hsame|([eth ->] & _ & _ & Hadd)].
  - exists n. rewrite Hn, Hsame. split; [done|].
    rewrite filter_cons. case_decide; cbn; lia.
  - exists (S n). rewrite Hn, Hadd, <- app_assoc. split; [done|].
    rewrite filter_cons_True by done. cbn. lia.
Qed.

Lemma listening_pairs n p :
  listeners p = concat (replicate n ["accountsChanged"; "chainChanged"]) →
  listening "accountsChanged" p = n ∧ listening "chainChanged" p = n.
Proof.
  unfold listening. intros ->. induction n as [|n [IH1 IH2]]; [done|].
  cbn [replicate concat app].
  rewrite (filter_cons_True _ "accountsChanged") by done.
  rewrite (filter_cons_False _ "chainChanged") by done.
  rewrite (filter_cons_False (λ x : string, x = "chainChanged") "accountsChanged") by done.
  rewrite (filter_cons_True _ "chainChanged") by done.
  cbn. by rewrite IH1, IH2.
Qed.

(** X12.  Listeners are registered by successful clicks on Connect only, a
    pair each time, and never removed: in every session the listener table
    is some number of copies of the pair, at most one per click.  A provider
    event runs every copy, yet the outcome is that of a single run of the
    listener; with no copy registered the event changes nothing. *)
Theorem listeners_accumulate ethereum events :
  let p := session ethereum events in
  ∃ n,
    listeners p = concat (replicate n ["accountsChanged"; "chainChanged"]) ∧
    n ≤ length (filter (λ e, is_connect e = true) events) ∧
    (∀ newAccounts,
       state (handle (AccountsChanged newAccounts) p) =
       if n is 0 then state p else accountsChanged newAccounts (state p)) ∧
    (∀ chainId,
       state (handle (ChainChanged chainId) p) =
       if n is 0 then state p else chainChanged show_inherited chainId (state p)).
Proof.
  intros p. subst p. unfold WalletPanel.session.
  destruct (run_listeners events (mount show_inherited ethereum)) as (n & Hn & Hle).
  rewrite mount_listeners in Hn. cbn [app] in Hn.
  exists n. split; [done|]. split; [done|].
  destruct (listening_pairs n _ Hn) as [Ha Hc].
  split; intros x; cbn [WalletPanel.handle with_state state].
  - by rewrite iter_accountsChanged, Ha.
  - by rewrite iter_chainChanged, Hc.
Qed.

Lemma handle_deaf e p :
  listeners p = [] → isConnected (state p) = true →
  listeners (handle e p) = [] ∧ connection (state (handle e p)) = connection (state p).
Proof.
  intros Hl Hc. destruct e.
  - rewrite handle_connect, Hc. done.
  - cbn. destruct (_ && _); [|done]. split; [done|]. apply click_send_connection.
  - cbn. rewrite Hc. split; [done|]. apply copyAddress_connection.
  - cbn. by rewrite Hc.
  - cbn. by rewrite Hc.
  - cbn. by rewrite Hc.
  - cbn [WalletPanel.handle with_state state listeners]. unfold listening.
    by rewrite Hl.
  - cbn [WalletPanel.handle with_state state listeners]. unfold listening.
    by rewrite Hl.
  - done.
  - cbn. split; [done|]. apply accountEffect_connection.
  - done.
Qed.

Lemma run_deaf events p :
  listeners p = [] → isConnected (state p) = true →
  listeners (run events p) = [] ∧ connection (state (run events p)) = connection (state p).
Proof.
  revert p. induction events as [|e events IH]; intros p Hl Hc; [done|].
  rewrite run_cons. destruct (handle_deaf e p Hl Hc) as [Hl' Hc'].
  pose proof Hc' as (_ & _ & Hi & _)%connection_fields.
  destruct (IH (handle e p)) as [Hl'' Hc'']; [done|congruence|].
  split; [done|congruence].
Qed.

(** X13.  When the mount effect finds the wallet already connected, the
    panel shows the connected view for the first reported account without
    having registered any listener, and no later event registers one: the
    Connect button is not rendered in that view.  For the rest of the session
    the account, the [web3] instance, [isConnected] and the network fields
    stay what the mount effect made them, whatever account or chain changes
    the provider reports. *)
Theorem silent_connection_never_listens eth a others events :
  eth_accounts eth = Resolved (a :: others) →
  let p0 := mount show_inherited (Some eth) in
  let p := session (Some eth) events in
  account (state p0) = Some a ∧ isConnected (state p0) = true ∧
  web3 (state p0) = Some (new_Web3 eth) ∧
  listeners p = [] ∧
  connection (state p) = connection (state p0).
Proof.
  intros Hacc p0 p.
  assert (H0 : account (state p0) = Some a ∧ isConnected (state p0) = true ∧
               web3 (state p0) = Some (new_Web3 eth)).
  { subst p0. unfold mount, initializeWeb3. rewrite Hacc.
    destruct (eth_chainId eth) as [chainId|error]; [|done].
    cbn [state].
    by destruct (checkNetwork_frame chainId
      (set_networkId (Some chainId)
         (set_isConnected true
            (set_account (Some a) (set_web3 (Some (new_Web3 eth)) initial)))))
      as (-> & -> & -> & _). }
  destruct H0 as (Ha & Hc & Hw). split; [done|]. split; [done|]. split; [done|].
  apply run_deaf; [apply mount_listeners|done].
Qed.

End Sessions.

(** *** The statements at sample inputs *)

Import Samples PanelSamples.

Ltac by_evaluation := vm_compute; first [reflexivity | lia | done].

(** A closed prompt, and a missing provider. *)
Lemma connectWallet_failure_witness :
  let s' := (connectWallet (Some refusing) fresh).1 in
  let calls := (connectWallet (Some refusing) fresh).2 in
  (web3 s' = web3 fresh ∧ account s' = account fresh ∧
   isConnected s' = isConnected fresh) ∧
  loading s' = false ∧
  calls = [request "eth_requestAccounts"] ∧
  text (message s') =
    "Connection rejected. Please approve the connection in MetaMask.".
Proof.
  intros s' calls.
  assert (Hfail : match Some refusing with
                  | None => True
                  | Some e => match eth_requestAccounts e with
                              | Resolved accounts => accounts = []
                              | Rejected _ => True
                              end
                  end) by exact I.
  destruct (connectWallet_failure (Some refusing) fresh Hfail)
    as (Hconn & Hload & _ & _ & _ & Hrej).
  destruct (Hrej refusing _ eq_refl eq_refl) as (Hcalls & _ & Htext & _).
  split; [exact Hconn|]. split; [exact Hload|]. split; [exact Hcalls|].
  exact (Htext eq_refl).
Defined.

Lemma connectWallet_success_witness :
  eth_requestAccounts unlocked = Resolved [first_account; second_account] ∧
  let s' := (connectWallet (Some unlocked) fresh).1 in
  account s' = Some first_account ∧ isConnected s' = true ∧
  web3 s' = web3 fresh ∧ loading s' = false.
Proof.
  assert (Hreq : eth_requestAccounts unlocked =
                 Resolved [first_account; second_account]) by reflexivity.
  split; [exact Hreq|]. intros s'.
  destruct (connectWallet_success unlocked fresh _ _ Hreq)
    as (Ha & Hc & Hw & _ & Hl & _).
  split; [exact Ha|]. split; [exact Hc|]. split; [exact Hw|]. exact Hl.
Defined.

Lemma initializeWeb3_failure_witness :
  eth_chainId flaky =
    Rejected {| code := Some (-32603)%Z; error_message := "Internal error" |} ∧
  let s' := (initializeWeb3 show_inherited (Some flaky) (initial (num := Q))).1 in
  type (message s') = "error" ∧
  account s' = Some first_account ∧ isConnected s' = true ∧ networkId s' = None.
Proof.
  assert (Hchain : eth_chainId flaky =
                   Rejected {| code := Some (-32603)%Z;
                               error_message := "Internal error" |}) by reflexivity.
  split; [exact Hchain|]. intros s'.
  destruct (initializeWeb3_failure show_inherited flaky initial
              (or_intror (ex_intro _ _ Hchain)))
    as (Hm & _ & Hn & _ & _ & Hres).
  destruct (Hres _ eq_refl) as (_ & Ha & Hc).
  split; [exact (f_equal type Hm)|]. split; [exact Ha|]. split; [exact Hc|].
  exact Hn.
Defined.

(** The session [connects] on a page opened on [refusing]. *)
Lemma connected_view_has_account_witness :
  let s := state (session parseFloat toFixed show_inherited (Some refusing) connects) in
  isConnected s = true ∧
  is_Some (web3 s) ∧ is_Some (account s) ∧
  text (message (click_send parseFloat toFixed clock s).1.2) ≠
    "Please connect your wallet first".
Proof.
  intros s.
  assert (Hc : isConnected s = true) by by_evaluation.
  assert (Hne : account s ≠ Some "") by (vm_compute; discriminate).
  split; [exact Hc|].
  destruct (connected_view_has_account parseFloat toFixed show_inherited
              (Some refusing) connects Hc) as (Hw & Ha & Hsend).
  split; [exact Hw|]. split; [exact Ha|]. exact (Hsend Hne clock).
Defined.

(** A page opened on [unlocked] does not follow [provider_changes]. *)
Lemma silent_connection_never_listens_witness :
  eth_accounts unlocked = Resolved [first_account; second_account] ∧
  let p := session parseFloat toFixed show_inherited (Some unlocked) provider_changes in
  listeners p = [] ∧ account (state p) = Some first_account ∧
  isConnected (state p) = true ∧ networkId (state p) = Some "0x1".
Proof.
  assert (Hacc : eth_accounts unlocked =
                 Resolved [first_account; second_account]) by reflexivity.
  split; [exact Hacc|]. intros p.
  destruct (silent_connection_never_listens parseFloat toFixed show_inherited
              unlocked _ _ provider_changes Hacc) as (Ha & Hc & _ & Hl & Hconn).
  apply connection_fields in Hconn as (_ & Ha' & Hc' & Hn & _).
  split; [exact Hl|]. split; [exact (eq_trans Ha' Ha)|].
  split; [exact (eq_trans Hc' Hc)|]. exact Hn.
Defined.

End WalletConnectionFacts.

(** ** Facts about sessions of the editor *)

Module EditorSessionFacts.
Import JsArray Editor EditorSession.

Section Facts.
Context {num : Type} `{Number num}.
Variable fromURL : string → FabricImage (num := num).

Implicit Types (s : State (num := num)) (c canvas : Canvas (num := num)).
Implicit Types (a u r : list (slot (num := num))) (x : slot (num := num)).
Implicit Types (o : FabricObject (num := num)).
Implicit Types (e : event (num := num)) (events : list (event (num := num))).

#[local] Abbreviation handle := (EditorSession.handle fromURL).
#[local] Abbreviation session := (EditorSession.session fromURL).
#[local] Abbreviation session_ok := (EditorSession.session_ok fromURL).
#[local] Abbreviation shows := (EditorSession.shows fromURL).

Lemma session_snoc events e : session (events ++ [e]) = handle e (session events).
Proof. unfold EditorSession.session. by rewrite fold_left_app. Qed.

Lemma entry_of_capped src a : Forall (entry_of src) a → Forall (entry_of src) (capped a).
Proof. apply EditorFacts.Forall_capped. Qed.

(** A recorded change of the objects keeps [session_ok]. *)
Lemma recorded_ok (f : Canvas (num := num) → Canvas (num := num)) s :
  (∀ c, backgroundImage (f c) = backgroundImage c ∧
        getWidth (f c) = getWidth c ∧ getHeight (f c) = getHeight c) →
  hasBackground s = true →
  session_ok s → session_ok (saveHistory (with_canvas f s)).
Proof.
  intros Hf Hb (Hu & Hr & c & Hc & Hok). rewrite Hb in Hok.
  destruct Hok as (src & Hsrc & Hbg & Hio & Hshow & Hus & Hrs).
  destruct (isRestoring s) eqn:Hrest.
  - rewrite EditorFacts.saveHistory_restoring by done.
    split; [done|]. split; [done|]. exists (f c). unfold with_canvas.
    rewrite Hc. split; [done|]. cbn. rewrite Hb.
    exists src. repeat (split; [done|]). split; [|done].
    destruct (Hf c) as (H1 & H2 & H3). unfold EditorSession.shows.
    by rewrite H1, H2, H3.
  - rewrite (EditorFacts.saveHistory_spec _ (f c)); [|done|by unfold with_canvas; rewrite Hc].
    split; [done|]. split; [done|]. exists (f c). unfold with_canvas.
    rewrite Hc. split; [done|]. cbn [hasBackground updateStackStates setCanRedo setCanUndo setItem set_localStorage set_undoStack set_canvasRef]. rewrite Hb.
    exists src. split; [done|]. split; [done|]. split; [done|]. split.
    { destruct (Hf c) as (H1 & H2 & H3). unfold EditorSession.shows.
      by rewrite H1, H2, H3. }
    split; [|done]. cbn. apply entry_of_capped. apply Forall_app. split; [done|].
    apply Forall_singleton. eexists. unfold snapshot_of. cbn. by rewrite Hbg.
Qed.

Lemma replace_object_frame i o c :
  backgroundImage (replace_object i o c) = backgroundImage c ∧
  getWidth (replace_object i o c) = getWidth c ∧
  getHeight (replace_object i o c) = getHeight c.
Proof. done. Qed.

Lemma addText_ok s : hasBackground s = true → session_ok s → session_ok (addText s).
Proof.
  intros Hb Hok. pose proof Hok as (_ & _ & c & Hc & _).
  unfold addText. rewrite Hc. cbn [canvas_add].
  by apply (recorded_ok (λ c, set_objects (push (getObjects c) new_Textbox) c)).
Qed.

Lemma object_modified_ok i o s : session_ok s → session_ok (object_modified i o s).
Proof.
  intros Hok. pose proof Hok as (_ & _ & c & Hc & Hcase).
  unfold object_modified. rewrite Hc.
  destruct (getObjects c !! i) as [old|] eqn:Hi; [|done].
  destruct (hasBackground s) eqn:Hb.
  - apply recorded_ok; [|done..]. intros. apply replace_object_frame.
  - destruct Hcase as (_ & Hnil & _). by rewrite Hnil in Hi.
Qed.

Lemma handleKey_ok i o s : session_ok s → session_ok (handleKey i o s).
Proof.
  intros (Hu & Hr & c & Hc & Hcase). unfold handleKey, with_canvas. rewrite Hc.
  split; [done|]. split; [done|]. eexists. split; [done|]. cbn.
  destruct (hasBackground s); [done|].
  destruct Hcase as (? & Hnil & ? & ?). by rewrite Hnil.
Qed.

Lemma restoreTimeout_ok s : session_ok s → session_ok (restoreTimeout s).
Proof. done. Qed.

Lemma truthy_nonempty (src : string) : src ≠ "" → truthy (Some src) = Some src.
Proof. by destruct src. Qed.

Lemma handleUpload_ok files s :
  hasBackground s = false → session_ok s → session_ok (handleUpload fromURL files s).
Proof.
  intros Hb Hok. pose proof Hok as (Hu & Hr & c & Hc & Hcase). rewrite Hb in Hcase.
  destruct Hcase as (Hbg & Hnil & Hus & Hrs).
  unfold handleUpload. destruct (head files) as [src|]; [|done].
  unfold onload. destruct (truthy src) as [src'|] eqn:Hsrc; [|done].
  assert (Hne : src' ≠ "").
  { destruct src as [[|? ?]|]; cbn in Hsrc; by simplify_eq. }
  rewrite Hc. unfold canvas_clear. cbn. rewrite Hc, Hnil. cbn.
  unfold with_canvas. cbn. rewrite Hc. cbn.
  split; [done|]. split; [done|]. eexists. split; [done|].
  exists src'. cbn. by rewrite Hus, Hrs.
Qed.

Lemma reset_ok s : session_ok s → session_ok (reset s).
Proof.
  intros (Hu & Hr & c & Hc & Hcase). unfold reset. rewrite Hc.
  assert (Hclear : ∃ c', canvasRef (canvas_clear s) = Some c' ∧ getObjects c' = []).
  { unfold canvas_clear. rewrite Hc. unfold with_canvas.
    rewrite EditorFacts.canvas_remove_canvas, Hc.
    destruct (getObjects c) eqn:Hobjs; cbn; eexists; (split; [done|]); done. }
  destruct Hclear as (c' & Hc' & Hnil).
  split; [done|]. split; [done|]. exists c'. split; [done|]. done.
Qed.

Lemma two_last {A} (l : list A) :
  length l > 1 → ∃ l' p t, l = l' ++ [p; t].
Proof.
  destruct l as [|t l _] using rev_ind; [cbn; lia|].
  destruct l as [|p l _] using rev_ind; [cbn; lia|].
  intros _. exists l, p, t. by rewrite <- app_assoc.
Qed.

Lemma undo_ok s : canUndo s = true → session_ok s → session_ok (state_of (undo fromURL s)).
Proof.
  intros Hcan (Hu & Hr & c & Hc & Hcase).
  rewrite Hcan in Hu. symmetry in Hu. apply Nat.ltb_lt in Hu.
  destruct (hasBackground s) eqn:Hb.
  2: { destruct Hcase as (_ & _ & Hnil & _). rewrite Hnil in Hu. cbn in Hu. lia. }
  destruct Hcase as (src & Hsrc & Hbg & Hio & Hshow & Hus & Hrs).
  destruct (two_last (undoStack s)) as (u & p & t & Hstack); [lia|].
  rewrite Hstack in Hus.
  apply Forall_app in Hus as [Hu' Hpt].
  rewrite Forall_cons, Forall_singleton in Hpt. destruct Hpt as [[objs ->] Ht].
  rewrite (EditorFacts.undo_spec _ _ c) by done.
  assert (Hrl : removelast (undoStack s) =
                u ++ [Some (JSON_stringify {| objects := objs; background := Some src |})]).
  { rewrite Hstack. change [?a; t] with ([a] ++ [t]).
    by rewrite app_assoc, removelast_last. }
  assert (Hl : last (undoStack s) = Some t).
  { rewrite Hstack. change [?a; t] with ([a] ++ [t]).
    by rewrite app_assoc, last_snoc. }
  rewrite Hrl, last_snoc. cbn [or_undefined default from_option id JSON_parse state_of].
  rewrite (EditorFacts.loadSnapshot_spec _ _ _ c) by done.
  cbn [objects background]. rewrite truthy_nonempty by done.
  split; [done|]. split; [done|]. eexists. split; [done|].
  cbn [hasBackground updateStackStates setCanUndo setCanRedo].
  rewrite bool_decide_eq_true_2 by by eexists.
  exists src. split; [done|]. split; [done|]. split; [done|]. split.
  { unfold EditorSession.shows, loaded_canvas. cbn [background].
    by rewrite truthy_nonempty. }
  cbn. rewrite Hrl, Hl. split.
  - apply Forall_app. split; [done|]. apply Forall_singleton. by eexists.
  - apply entry_of_capped. apply Forall_app. split; [done|].
    by apply Forall_singleton.
Qed.

Lemma redo_ok s : canRedo s = true → session_ok s → session_ok (state_of (redo fromURL s)).
Proof.
  intros Hcan (Hu & Hr & c & Hc & Hcase).
  rewrite Hcan in Hr. symmetry in Hr. apply Nat.ltb_lt in Hr.
  destruct (hasBackground s) eqn:Hb.
  2: { destruct Hcase as (_ & _ & _ & Hnil). rewrite Hnil in Hr. cbn in Hr. lia. }
  destruct Hcase as (src & Hsrc & Hbg & Hio & Hshow & Hus & Hrs).
  destruct (redoStack s) as [|t r _] eqn:Hstack using rev_ind; [cbn in Hr; lia|].
  apply Forall_app in Hrs as [Hr' Ht]. rewrite Forall_singleton in Ht.
  destruct Ht as [objs ->].
  rewrite (EditorFacts.redo_spec _ _ c); [|done|rewrite Hstack; by destruct r].
  rewrite Hstack, last_snoc. cbn [or_undefined default from_option id JSON_parse state_of].
  rewrite (EditorFacts.loadSnapshot_spec _ _ _ c) by done.
  cbn [objects background]. rewrite truthy_nonempty by done.
  split; [done|]. split; [done|]. eexists. split; [done|].
  cbn [hasBackground updateStackStates setCanUndo setCanRedo].
  rewrite bool_decide_eq_true_2 by by eexists.
  exists src. split; [done|]. split; [done|]. split; [done|]. split.
  { unfold EditorSession.shows, loaded_canvas. cbn [background].
    by rewrite truthy_nonempty. }
  cbn. rewrite Hstack, last_snoc, removelast_last. split; [|done].
  apply entry_of_capped. apply Forall_app. split; [done|].
  apply Forall_singleton. by eexists.
Qed.

Lemma handle_ok e s : session_ok s → session_ok (handle e s).
Proof.
  intros Hok. destruct e; cbn.
  - destruct (hasBackground s) eqn:Hb; [done|]. by apply handleUpload_ok.
  - destruct (hasBackground s) eqn:Hb; [|done]. by apply addText_ok.
  - by apply object_modified_ok.
  - by apply handleKey_ok.
  - destruct (canUndo s) eqn:Hcan; [|done]. by apply undo_ok.
  - destruct (canRedo s) eqn:Hcan; [|done]. by apply redo_ok.
  - destruct (hasBackground s) eqn:Hb; [|done]. by apply reset_ok.
  - done.
Qed.

(** Sessions start where the mount effect leaves a page with nothing
    stored. *)
Lemma fresh_is_mounted : fresh = mount fromURL (unmounted ∅).
Proof. unfold mount, fresh. cbn. by rewrite lookup_empty. Qed.

Lemma fresh_ok : session_ok fresh.
Proof. split; [done|]. split; [done|]. by eexists. Qed.

Lemma session_session_ok events : session_ok (session events).
Proof.
  induction events as [|e events IH] using rev_ind; [apply fresh_ok|].
  rewrite session_snoc. by apply handle_ok.
Qed.

(** Undo, where the button is enabled, and Redo come back with a snapshot of
    the current background loaded. *)
Lemma undo_session s :
  session_ok s → canUndo s = true →
  ∃ c src objs,
    canvasRef s = Some c ∧ hasBackground s = true ∧
    backgroundRef s = Some src ∧ src ≠ "" ∧ shows src c ∧
    undo fromURL s =
    Return (updateStackStates
              (loadSnapshot fromURL {| objects := objs; background := Some src |}
                 (undo_popped s))).
Proof.
  intros (Hu & Hr & c & Hc & Hcase) Hcan.
  rewrite Hcan in Hu. symmetry in Hu. apply Nat.ltb_lt in Hu.
  destruct (hasBackground s) eqn:Hb.
  2: { destruct Hcase as (_ & _ & Hnil & _). rewrite Hnil in Hu. cbn in Hu. lia. }
  destruct Hcase as (src & Hsrc & Hbg & Hio & Hshow & Hus & Hrs).
  destruct (two_last (undoStack s)) as (u & p & t & Hstack); [lia|].
  rewrite Hstack in Hus.
  apply Forall_app in Hus as [Hu' Hpt].
  rewrite Forall_cons, Forall_singleton in Hpt. destruct Hpt as [[objs ->] Ht].
  exists c, src, objs. repeat (split; [done|]).
  rewrite (EditorFacts.undo_spec _ _ c) by done.
  rewrite Hstack. change [?a; t] with ([a] ++ [t]).
  by rewrite app_assoc, removelast_last, last_snoc.
Qed.

Lemma redo_session s :
  session_ok s →
  redo fromURL s = Return s ∧ redoStack s = [] ∨
  ∃ c src objs,
    canvasRef s = Some c ∧ hasBackground s = true ∧
    backgroundRef s = Some src ∧ src ≠ "" ∧ shows src c ∧
    redo fromURL s =
    Return (updateStackStates
              (loadSnapshot fromURL {| objects := objs; background := Some src |}
                 (redo_popped s))).
Proof.
  intros (Hu & Hr & c & Hc & Hcase).
  destruct (redoStack s) as [|t r _] eqn:Hstack using rev_ind.
  { left. split; [|done]. by apply EditorFacts.redo_empty. }
  right. destruct (hasBackground s) eqn:Hb.
  2: { destruct Hcase as (_ & _ & _ & Hnil). by destruct r. }
  destruct Hcase as (src & Hsrc & Hbg & Hio & Hshow & Hus & Hrs).
  apply Forall_app in Hrs as [Hr' Ht]. rewrite Forall_singleton in Ht.
  destruct Ht as [objs ->].
  exists c, src, objs. repeat (split; [done|]).
  rewrite (EditorFacts.redo_spec _ _ c); [|done|rewrite Hstack; by destruct r].
  by rewrite Hstack, last_snoc.
Qed.

(** What [loadSnapshot] leaves of the background when the snapshot carries
    the background already shown. *)
Lemma loadSnapshot_same_background objs src s c :
  canvasRef s = Some c → src ≠ "" → shows src c →
  let s' := updateStackStates
              (loadSnapshot fromURL {| objects := objs; background := Some src |} s) in
  backgroundRef s' = Some src ∧ hasBackground s' = true ∧
  imgOriginal s' = imgOriginal s ∧ localStorage s' = localStorage s ∧
  ∃ c', canvasRef s' = Some c' ∧ getObjects c' = objs ∧
        backgroundImage c' = backgroundImage c ∧
        getWidth c' = getWidth c ∧ getHeight c' = getHeight c.
Proof.
  intros Hc Hsrc (Hi & Hw & Hh) s'. subst s'.
  rewrite (EditorFacts.loadSnapshot_spec _ _ _ c) by done.
  cbn [objects background]. rewrite truthy_nonempty by done.
  split; [done|]. split; [by apply bool_decide_eq_true_2; eexists|].
  split; [done|]. split; [done|]. eexists. split; [done|].
  unfold loaded_canvas. cbn [background]. rewrite truthy_nonempty by done.
  cbn. by rewrite Hi, Hw, Hh.
Qed.

(** X14.  In every session the Undo and Redo buttons tell the truth and the
    two handlers never fail: [canUndo] holds exactly when the undo stack has
    more than one entry and [canRedo] exactly when the redo stack has one, no
    entry of either stack is [undefined], a click on Undo while it is enabled
    returns, and so does every click on Redo. *)
Theorem undo_redo_never_fail events :
  let s := session events in
  (canUndo s = true ↔ length (undoStack s) > 1) ∧
  (canRedo s = true ↔ redoStack s ≠ []) ∧
  Forall is_Some (undoStack s) ∧ Forall is_Some (redoStack s) ∧
  (canUndo s = true → returns (undo fromURL s) = true) ∧
  returns (redo fromURL s) = true.
Proof.
  intros s. pose proof (session_session_ok events) as Hok. fold s in Hok.
  pose proof Hok as (Hu & Hr & c & Hc & Hcase).
  split; [by rewrite Hu, Nat.ltb_lt|]. split.
  { rewrite Hr, Nat.ltb_lt. destruct (redoStack s); cbn; [split; [lia|done]|].
    split; [done|lia]. }
  assert (Hsome : ∀ src a, Forall (entry_of src) a → Forall is_Some a).
  { intros src a Ha. eapply Forall_impl; [exact Ha|]. by intros x [objs ->]. }
  split; [|split; [|split]].
  - destruct (hasBackground s).
    + destruct Hcase as (src & _ & _ & _ & _ & Hus & _). by eapply Hsome.
    + destruct Hcase as (_ & _ & -> & _). constructor.
  - destruct (hasBackground s).
    + destruct Hcase as (src & _ & _ & _ & _ & _ & Hrs). by eapply Hsome.
    + destruct Hcase as (_ & _ & _ & ->). constructor.
  - intros Hcan.
    by destruct (undo_session s Hok Hcan) as (? & ? & ? & _ & _ & _ & _ & _ & ->).
  - by destruct (redo_session s Hok)
      as [[-> _]|(? & ? & ? & _ & _ & _ & _ & _ & ->)].
Qed.

(** X15.  In every session the whole history belongs to the background on
    display: each entry of the undo and redo stacks is a snapshot taken with
    the current background reference.  Hence Undo and Redo change the
    objects only: the background reference, the background image, the canvas
    size, [hasBackground] and the recorded original size are after the click
    what they were before. *)
Theorem history_has_one_background events :
  let s := session events in
  (∀ x, x ∈ undoStack s ++ redoStack s →
     is_Some (backgroundRef s) ∧
     ∃ objs, x = Some (JSON_stringify {| objects := objs;
                                         background := backgroundRef s |})) ∧
  (∀ e, e = UndoClicked ∨ e = RedoClicked →
     let s' := handle e s in
     backgroundRef s' = backgroundRef s ∧ hasBackground s' = hasBackground s ∧
     imgOriginal s' = imgOriginal s ∧
     ∃ c c', canvasRef s = Some c ∧ canvasRef s' = Some c' ∧
             backgroundImage c' = backgroundImage c ∧
             getWidth c' = getWidth c ∧ getHeight c' = getHeight c).
Proof.
  intros s. pose proof (session_session_ok events) as Hok. fold s in Hok.
  pose proof Hok as (Hu & Hr & c & Hc & Hcase). split.
  - intros x Hx. destruct (hasBackground s).
    + destruct Hcase as (src & _ & -> & _ & _ & Hus & Hrs). split; [by eexists|].
      apply elem_of_app in Hx as [Hx|Hx].
      * by apply (proj1 (Forall_forall _ _) Hus).
      * by apply (proj1 (Forall_forall _ _) Hrs).
    + destruct Hcase as (_ & _ & Hus & Hrs). rewrite Hus, Hrs in Hx.
      by apply elem_of_nil in Hx.
  - assert (Hsame : backgroundRef s = backgroundRef s ∧
                    hasBackground s = hasBackground s ∧
                    imgOriginal s = imgOriginal s ∧
                    ∃ c0 c', canvasRef s = Some c0 ∧ canvasRef s = Some c' ∧
                             backgroundImage c' = backgroundImage c0 ∧
                             getWidth c' = getWidth c0 ∧ getHeight c' = getHeight c0).
    { repeat (split; [done|]). by exists c, c. }
    intros e [-> | ->] s'; subst s'; cbn [EditorSession.handle].
    + destruct (canUndo s) eqn:Hcan; [|done].
      destruct (undo_session s Hok Hcan)
        as (c0 & src & objs & Hc0 & Hb & Hbg & Hsrc & Hshow & ->).
      cbn [state_of].
      destruct (loadSnapshot_same_background objs src (undo_popped s) c0)
        as (-> & -> & -> & _ & c' & Hc' & _ & Hi & Hw & Hh); [done..|].
      split; [done|]. split; [done|]. split; [done|]. by exists c0, c'.
    + destruct (canRedo s) eqn:Hcan; [|done].
      destruct (redo_session s Hok)
        as [[-> _]|(c0 & src & objs & Hc0 & Hb & Hbg & Hsrc & Hshow & ->)];
        [done|].
      cbn [state_of].
      destruct (loadSnapshot_same_background objs src (redo_popped s) c0)
        as (-> & -> & -> & _ & c' & Hc' & _ & Hi & Hw & Hh); [done..|].
      split; [done|]. split; [done|]. split; [done|]. by exists c0, c'.
Qed.

(** X16.  In every session, whenever the Export button is enabled the
    recorded original size is that of the image on display and the canvas has
    its fitted size: the export is a canvas of exactly the original width and
    height of the displayed background, with the background loaded again from
    its source and the objects of the display scaled by the ratio of the
    original to the displayed size, also after edits, undo and redo, or a
    reset followed by another upload. *)
Theorem export_matches_background events :
  let s := session events in
  hasBackground s = true →
  ∃ src shown ex,
    src ≠ "" ∧ backgroundRef s = Some src ∧ canvasRef s = Some shown ∧
    let W := img_width (fromURL src) in
    let Hh := img_height (fromURL src) in
    getWidth shown = mul W (fit_scale W) ∧
    getHeight shown = mul Hh (fit_scale W) ∧
    handleExport fromURL s = Some ex ∧
    getWidth ex = W ∧ getHeight ex = Hh ∧
    backgroundImage ex = Some (fromURL (getSrc (fromURL src))) ∧
    getObjects ex =
      map (export_object (div W (getWidth shown)) (div Hh (getHeight shown)))
          (getObjects shown).
Proof.
  intros s Hb. pose proof (session_session_ok events) as Hok. fold s in Hok.
  destruct Hok as (_ & _ & c & Hc & Hcase). rewrite Hb in Hcase.
  destruct Hcase as (src & Hsrc & Hbg & Hio & (Hi & Hw & Hh) & _).
  exists src, c. eexists. split; [done|]. split; [done|]. split; [done|].
  cbn zeta. split; [done|]. split; [done|]. split.
  { by apply EditorFacts.handleExport_spec. }
  cbn. by rewrite Hi.
Qed.

(** X17.  The first edit on a new background cannot be undone.  After an
    upload and a click on Add Text, the history holds the single snapshot
    with the text box, which is also what is stored, and Undo is disabled;
    the bare background was never recorded.  After one more change of an
    object, Undo leads back to the canvas with the first text box and is
    disabled again. *)
Theorem first_edit_cannot_be_undone events (src : string) :
  let s := session events in
  hasBackground s = false → isRestoring s = false → src ≠ "" →
  let first := JSON_stringify {| objects := [new_Textbox];
                                 background := Some src |} in
  let s1 := handle AddTextClicked (handle (Uploaded [Some src]) s) in
  undoStack s1 = [Some first] ∧ canUndo s1 = false ∧
  localStorage s1 !! "canvasDesign" = Some first ∧
  handle UndoClicked s1 = s1 ∧
  ∀ i o,
    let s3 := handle UndoClicked (handle (ObjectModified i o) s1) in
    getObjects <$> canvasRef s3 = Some [new_Textbox] ∧
    undoStack s3 = [Some first] ∧ canUndo s3 = false.
Proof.
  intros s Hb Hrest Hsrc first s1.
  pose proof (session_session_ok events) as Hok. fold s in Hok.
  destruct Hok as (Hu & Hr & c & Hc & Hcase). rewrite Hb in Hcase.
  destruct Hcase as (Hbg & Hnil & Hus & Hrs).
  clearbody s. destruct s, c. cbn in Hb, Hrest, Hc, Hbg, Hnil, Hus, Hrs, Hu, Hr.
  subst. destruct src as [|ch src]; [done|].
  subst first.
  set (s_up := handle (Uploaded [Some (String ch src)]) _) in *.
  assert (Hup : isRestoring s_up = false ∧ hasBackground s_up = true ∧
                ∃ c_up, canvasRef s_up = Some c_up)
    by (split; [|split; [|eexists]]; vm_compute; reflexivity).
  destruct Hup as (Hrest_up & Hb_up & c_up & Hc_up).
  assert (Hcan : canUndo s1 = false) by (vm_compute; reflexivity).
  split; [vm_compute; reflexivity|]. split; [exact Hcan|]. split.
  { subst s1. cbn [EditorSession.handle]. rewrite Hb_up. unfold addText.
    rewrite Hc_up. cbn [canvas_add].
    erewrite EditorFacts.saveHistory_spec;
      [|exact Hrest_up|unfold with_canvas; rewrite Hc_up; reflexivity].
    cbn [localStorage updateStackStates setCanUndo setCanRedo setItem set_localStorage].
    rewrite lookup_insert_eq. f_equal. vm_compute in Hc_up.
    injection Hc_up as <-. vm_compute. reflexivity. }
  split.
  { change (handle UndoClicked s1) with (if canUndo s1 then state_of (undo fromURL s1) else s1).
    by rewrite Hcan. }
  intros [|i] o; (split; [vm_compute; reflexivity|]);
    (split; vm_compute; reflexivity).
Qed.

Lemma recorded_stored (f : Canvas (num := num) → Canvas (num := num)) s c :
  canvasRef s = Some c → hasBackground s = true →
  stored_ok s → stored_ok (saveHistory (with_canvas f s)).
Proof.
  intros Hc Hb Hst. destruct (isRestoring s) eqn:Hrest.
  - by rewrite EditorFacts.saveHistory_restoring.
  - rewrite (EditorFacts.saveHistory_spec _ (f c));
      [|done|by unfold with_canvas; rewrite Hc].
    unfold stored_ok.
    cbn [localStorage updateStackStates setCanUndo setCanRedo setItem set_localStorage].
    rewrite lookup_insert_eq. split; [done|]. by eexists.
Qed.

Lemma handle_stored e s : session_ok s → stored_ok s → stored_ok (handle e s).
Proof.
  intros Hok Hst. pose proof Hok as (Hu & Hr & c & Hc & Hcase).
  destruct e; cbn [EditorSession.handle].
  - destruct (hasBackground s) eqn:Hb; [done|].
    destruct Hcase as (Hbg & Hnil & Hus & Hrs).
    unfold handleUpload. destruct (head files) as [src|]; [|done].
    unfold onload. destruct (truthy src) as [src'|] eqn:Hsrc; [|done].
    rewrite Hc. unfold canvas_clear. cbn. rewrite Hc, Hnil. cbn.
    unfold with_canvas. cbn. rewrite Hc. cbn.
    unfold stored_ok, setItem. cbn. rewrite lookup_insert_eq.
    split; [done|]. by eexists.
  - destruct (hasBackground s) eqn:Hb; [|done].
    unfold addText. rewrite Hc. cbn [canvas_add].
    by apply (recorded_stored _ s c).
  - unfold object_modified. rewrite Hc.
    destruct (getObjects c !! i) as [old|] eqn:Hi; [|done].
    destruct (hasBackground s) eqn:Hb.
    + by apply (recorded_stored _ s c).
    + destruct Hcase as (_ & Hnil & _). by rewrite Hnil in Hi.
  - done.
  - destruct (canUndo s) eqn:Hcan; [|done].
    destruct (undo_session s Hok Hcan)
      as (c0 & src & objs & Hc0 & Hb & Hbg & Hsrc & Hshow & ->).
    cbn [state_of].
    destruct (loadSnapshot_same_background objs src (undo_popped s) c0)
      as (Hbg' & Hb' & _ & Hl & _); [done..|].
    unfold stored_ok in *. rewrite Hl, Hb', Hbg'. cbn [localStorage undo_popped set_redoStack set_undoStack].
    by rewrite Hb, Hbg in Hst.
  - destruct (canRedo s) eqn:Hcan; [|done].
    destruct (redo_session s Hok)
      as [[-> _]|(c0 & src & objs & Hc0 & Hb & Hbg & Hsrc & Hshow & ->)];
      [done|].
    cbn [state_of].
    destruct (loadSnapshot_same_background objs src (redo_popped s) c0)
      as (Hbg' & Hb' & _ & Hl & _); [done..|].
    unfold stored_ok in *. rewrite Hl, Hb', Hbg'. cbn [localStorage redo_popped set_redoStack set_undoStack].
    by rewrite Hb, Hbg in Hst.
  - destruct (hasBackground s) eqn:Hb; [|done].
    unfold reset. rewrite Hc. unfold stored_ok, removeItem. cbn.
    by rewrite lookup_delete_eq.
  - done.
Qed.

(** X18.  In every session the design stored under "canvasDesign" goes with
    the display: the key is absent exactly while there is no background, and
    otherwise it holds a snapshot taken with the background reference now on
    display.  The stored objects may lag behind the canvas, the stored
    background never does. *)
Theorem stored_background_is_displayed events :
  let s := session events in
  match localStorage s !! "canvasDesign" with
  | None => hasBackground s = false ∧ backgroundRef s = None
  | Some t =>
    hasBackground s = true ∧ is_Some (backgroundRef s) ∧
    background (parse t) = backgroundRef s
  end.
Proof.
  intros s.
  assert (Hboth : session_ok s ∧ stored_ok s).
  { subst s. induction events as [|e events [IH1 IH2]] using rev_ind.
    - split; [apply fresh_ok|done].
    - rewrite session_snoc. split; [by apply handle_ok|by apply handle_stored]. }
  destruct Hboth as [(_ & _ & c & _ & Hcase) Hst]. unfold stored_ok in Hst.
  destruct (localStorage s !! "canvasDesign") as [t|].
  - destruct Hst as (Hb & objs & ->). rewrite Hb in Hcase.
    destruct Hcase as (src & _ & Hbg & _). split; [done|].
    split; [by rewrite Hbg|done].
  - rewrite Hst in Hcase. by destruct Hcase as (Hbg & _).
Qed.

End Facts.

(** *** The statements at sample inputs *)

Import Samples.

Ltac by_evaluation := vm_compute; first [reflexivity | lia | done].

(** An upload, two edits and an undo; the sample image is 1200 by 800. *)
Lemma export_matches_background_witness :
  let s := session fromURL [Uploaded [Some png]; AddTextClicked;
                            ObjectModified 0 caption; UndoClicked] in
  hasBackground s = true ∧
  ∃ ex, handleExport fromURL s = Some ex ∧
        getWidth ex = lit 1200 ∧ getHeight ex = lit 800 ∧
        length (getObjects ex) = 1.
Proof.
  intros s.
  assert (Hb : hasBackground s = true) by by_evaluation.
  split; [exact Hb|].
  destruct (export_matches_background fromURL _ Hb)
    as (src & shown & ex & _ & Hbg & Hshown & _ & _ & Hex & Hw & Hh & _ & Hobjs).
  assert (Hpng : backgroundRef s = Some png) by by_evaluation.
  assert (Hc : length <$> (getObjects <$> canvasRef s) = Some 1) by by_evaluation.
  pose proof (eq_trans (eq_sym Hbg) Hpng) as Hsrc. injection Hsrc as ->.
  exists ex. split; [exact Hex|]. split; [exact Hw|]. split; [exact Hh|].
  rewrite Hobjs, length_map.
  pose proof (eq_trans (eq_sym (f_equal (λ x, length <$> (getObjects <$> x)) Hshown)) Hc)
    as Hlen.
  by injection Hlen.
Defined.

Lemma first_edit_cannot_be_undone_witness :
  let s := session fromURL [] in
  let s1 := handle fromURL AddTextClicked (handle fromURL (Uploaded [Some png]) s) in
  hasBackground s = false ∧ isRestoring s = false ∧ png ≠ "" ∧
  undoStack s1 =
    [Some (JSON_stringify {| objects := [new_Textbox]; background := Some png |})] ∧
  canUndo s1 = false ∧ handle fromURL UndoClicked s1 = s1.
Proof.
  intros s s1.
  assert (Hne : png ≠ "") by discriminate.
  split; [reflexivity|]. split; [reflexivity|]. split; [exact Hne|].
  destruct (first_edit_cannot_be_undone fromURL [] png eq_refl eq_refl Hne)
    as (Hu & Hcan & _ & Hundo & _).
  split; [exact Hu|]. split; [exact Hcan|]. exact Hundo.
Defined.

End EditorSessionFacts.
